(** * News sentiment from Chronicling America

    A shallow embedding of [news_sentiment.py] (class [ChroniclingAmerica])
    and the properties of its retrieval and extraction pipeline.

    Conventions of the embedding.
    - Python values that the constructor may receive are the inductive
      [Py.value]; Python exceptions are [Py.exn]; a call that may raise
      returns in the [Fetch.result] type.
    - The two regular expressions are compiled without [re.ASCII], so
      [\w], [\b] and [re.I] are the Unicode ones.  On ASCII text they
      are the ASCII classes, and this is the text that the embedding
      covers: a [string] of the standard library, scanned as a
      [list ascii].  For a string with a character outside ASCII the
      functions of [Re] give no answer ([None]), and a run that needs
      one ends in [Fetch.Unmodelled].
    - Keywords are pasted into the pattern unescaped
      ([r"\b|\b".join(keywords)]).  The embedding reads three forms of
      keyword: one without any operator of the pattern syntax, matched
      as a literal word; such a word between parentheses, a capture
      group; and one with an open parenthesis that nothing closes, for
      which [re.compile] raises.  Keywords of any other form are not
      modelled ([Re.NotModelled]).
    - [request_time] is a binary64 float ([PrimFloat]), as in Python.
    - The remote service, [time.sleep], TextBlob and [pd.to_datetime] are
      the environment: an oracle, a trace event and two parameters.
      [pd.to_datetime] is called once on the whole column of dates, so
      the parameter takes the values of the column together. *)

From Stdlib Require Import ZArith List String Ascii Bool Arith Lia.
From Stdlib Require Import PrimFloat DecimalString.
From Stdlib Require DecimalZ DecimalPos.
Import ListNotations.

Local Open Scope string_scope.
Local Open Scope list_scope.

(** ** Python values and exceptions *)

Module Py.

Inductive value : Type :=
| VInt (z : Z)
| VBool (b : bool)
| VStr (s : string)
| VNone.

(** The [keywords] argument: "str or lst". *)
Inductive keywords_arg : Type :=
| KwStr (s : string)
| KwList (l : list value).

(** [isinstance(v, int)]: [bool] is a subclass of [int]. *)
Definition isinstance_int (v : value) : bool :=
  match v with VInt _ | VBool _ => true | _ => false end.

Definition isinstance_str (v : value) : bool :=
  match v with VStr _ => true | _ => false end.

Definition str_of_Z (z : Z) : string := NilZero.string_of_int (Z.to_int z).

(** [str(v)] for the values that end up in a query string. *)
Definition str (v : value) : string :=
  match v with
  | VInt z => str_of_Z z
  | VBool true => "True"
  | VBool false => "False"
  | VStr s => s
  | VNone => "None"
  end.

(** The exceptions that the program can meet; [ReError] is [re.error]. *)
Inductive exn : Type :=
| TypeError (msg : string)
| RuntimeError (msg : string)
| KeyError (msg : string)
| ValueError (msg : string)
| UnboundLocalError (msg : string)
| RequestException (name : string)
| ReError (msg : string).

(** [sep.join(parts)] *)
Fixpoint join (sep : string) (parts : list string) : string :=
  match parts with
  | [] => ""
  | [p] => p
  | p :: ps => p ++ sep ++ join sep ps
  end.

End Py.

(** ** The regular expressions of the module *)

Module Re.

Definition text := list ascii.

Definition period : ascii := "."%char.

Definition is_period (c : ascii) : bool := Ascii.eqb c period.

(** The matcher below works on ASCII characters, and on alternatives
    that are words to be found as they are; [compile], [findall] and
    [split_nonword] further down only call it on such input. *)

(** [\w], on an ASCII character *)
Definition is_word (c : ascii) : bool :=
  let n := nat_of_ascii c in
  (((48 <=? n) && (n <=? 57)) || ((65 <=? n) && (n <=? 90))
   || ((97 <=? n) && (n <=? 122)) || (n =? 95))%nat.

(** Case folding of [re.I], on an ASCII character. *)
Definition lower (c : ascii) : ascii :=
  let n := nat_of_ascii c in
  if ((65 <=? n) && (n <=? 90))%nat then ascii_of_nat (n + 32) else c.

Definition eq_nocase (a b : ascii) : bool := Ascii.eqb (lower a) (lower b).

Definition word_before (before : option ascii) : bool :=
  match before with Some c => is_word c | None => false end.

Definition word_after (after : text) : bool :=
  match after with c :: _ => is_word c | [] => false end.

(** [\b] at the position whose previous character is [before] and whose
    remaining input is [after]. *)
Definition boundary (before : option ascii) (after : text) : bool :=
  xorb (word_before before) (word_after after).

(** A literal [kw] against the head of [s], ignoring case: the character
    before the position reached and the remaining input. *)
Fixpoint literal (kw : text) (before : option ascii) (s : text)
  : option (option ascii * text) :=
  match kw with
  | [] => Some (before, s)
  | k :: kw' =>
      match s with
      | c :: s' => if eq_nocase k c then literal kw' (Some c) s' else None
      | [] => None
      end
  end.

(** [\bkw\b] at a position, for a keyword [kw] without operators: the
    number of characters consumed. *)
Definition word_at (kw : text) (before : option ascii) (s : text)
  : option nat :=
  if boundary before s then
    match literal kw before s with
    | Some (b', s') => if boundary b' s' then Some (List.length kw) else None
    | None => None
    end
  else None.

(** [.*?\.] with [re.S]: lazily up to and including the first period. *)
Fixpoint lazy_period (s : text) : option nat :=
  match s with
  | [] => None
  | c :: s' =>
      if is_period c then Some 1%nat
      else option_map S (lazy_period s')
  end.

(** The first alternative of [(?:\bk1\b|\bk2\b|...)] followed by
    [.*?\.] that succeeds: the number of characters consumed.  The
    pattern always has an alternative, see [pieces]. *)
Fixpoint alternatives (kws : list text) (before : option ascii) (s : text)
  : option nat :=
  match kws with
  | [] => None
  | kw :: kws' =>
      match word_at kw before s with
      | Some n =>
          match lazy_period (skipn n s) with
          | Some m => Some (n + m)%nat
          | None => alternatives kws' before s
          end
      | None => alternatives kws' before s
      end
  end.

(** Greedy [[^\.]*] followed by the rest of the pattern: the class takes
    as many characters as it can and gives them back one at a time.  The
    result is the total number of characters matched from [s]. *)
Fixpoint greedy_class (kws : list text) (before : option ascii) (s : text)
  : option nat :=
  match s with
  | c :: s' =>
      if is_period c then alternatives kws before s
      else
        match greedy_class kws (Some c) s' with
        | Some n => Some (S n)
        | None => alternatives kws before s
        end
  | [] => alternatives kws before s
  end.

(** The whole pattern
    [(?<=\.)+[^\.]*(?:\bk1\b|...|\bkn\b).*?\.] at one position.  The
    lookbehind consumes nothing, so repeating it ([+]) asks no more than
    asking it once: the previous character is a period. *)
Definition keyword_sentence_pattern (kws : list text)
           (before : option ascii) (s : text) : option nat :=
  match before with
  | Some c => if is_period c then greedy_class kws before s else None
  | None => None
  end.

(** [re.findall]: leftmost matches, scanning resumes where a match
    ended.  [skip] counts the characters of the last match still to be
    passed over. *)
Fixpoint findall_from (kws : list text) (before : option ascii)
         (skip : nat) (s : text) : list text :=
  match s with
  | [] => []
  | c :: s' =>
      match skip with
      | S k => findall_from kws (Some c) k s'
      | O =>
          match keyword_sentence_pattern kws before s with
          | Some (S n) =>
              firstn (S n) s :: findall_from kws (Some c) n s'
          | _ => findall_from kws (Some c) 0 s'
          end
      end
  end.

(** *** A capture group among the alternatives *)

(** The alternatives with a mark on the one that is a capture group.
    The search is the one above; it also keeps what the group holds in
    the alternative that succeeded, which is nothing when that
    alternative is not the group. *)
Fixpoint alternatives_group (alts : list (bool * text))
         (before : option ascii) (s : text) : option (nat * text) :=
  match alts with
  | [] => None
  | (group, kw) :: alts' =>
      match word_at kw before s with
      | Some n =>
          match lazy_period (skipn n s) with
          | Some m => Some ((n + m)%nat, if group then firstn n s else [])
          | None => alternatives_group alts' before s
          end
      | None => alternatives_group alts' before s
      end
  end.

Fixpoint greedy_class_group (alts : list (bool * text))
         (before : option ascii) (s : text) : option (nat * text) :=
  match s with
  | c :: s' =>
      if is_period c then alternatives_group alts before s
      else
        match greedy_class_group alts (Some c) s' with
        | Some (n, g) => Some (S n, g)
        | None => alternatives_group alts before s
        end
  | [] => alternatives_group alts before s
  end.

Definition keyword_sentence_pattern_group (alts : list (bool * text))
           (before : option ascii) (s : text) : option (nat * text) :=
  match before with
  | Some c => if is_period c then greedy_class_group alts before s else None
  | None => None
  end.

(** [re.findall] with one capture group in the pattern: the list of
    what the group holds in each match. *)
Fixpoint findall_group_from (alts : list (bool * text))
         (before : option ascii) (skip : nat) (s : text) : list text :=
  match s with
  | [] => []
  | c :: s' =>
      match skip with
      | S k => findall_group_from alts (Some c) k s'
      | O =>
          match keyword_sentence_pattern_group alts before s with
          | Some (S n, g) => g :: findall_group_from alts (Some c) n s'
          | _ => findall_group_from alts (Some c) 0 s'
          end
      end
  end.

(** *** What the embedding covers *)

(** On ASCII characters the Unicode classes of Python are the ASCII
    classes above. *)
Definition is_ascii (c : ascii) : bool := (nat_of_ascii c <? 128)%nat.

Definition ascii_only (s : text) : bool := forallb is_ascii s.

(** The characters to which the syntax of patterns gives a meaning. *)
Definition is_operator (c : ascii) : bool :=
  existsb (Ascii.eqb c) (list_ascii_of_string ".^$*+?{}[]\|()").

(** A character that stands for itself in a pattern. *)
Definition is_literal (c : ascii) : bool := is_ascii c && negb (is_operator c).

Definition open_paren : ascii := "("%char.

Definition close_paren : ascii := ")"%char.

(** A keyword as the pattern reads it. *)
Inductive keyword : Type :=
| Word (kw : text)
| Captured (kw : text)
| Unclosed
| Other.

(** [Word]: no operator at all.  [Captured]: ["(" ++ kw ++ ")"] with no
    operator in [kw].  [Unclosed]: no operator but one or more ["("].
    [Other]: anything else. *)
Definition parse_keyword (kw : text) : keyword :=
  if forallb is_literal kw then Word kw
  else if forallb (fun c => is_literal c || Ascii.eqb c open_paren) kw
  then Unclosed
  else
    match kw with
    | c :: kw' =>
        match rev kw' with
        | d :: body =>
            if Ascii.eqb c open_paren && Ascii.eqb d close_paren
               && forallb is_literal body
            then Captured (rev body)
            else Other
        | [] => Other
        end
    | [] => Other
    end.

Definition is_other (k : keyword) : bool :=
  match k with Other => true | _ => false end.

Definition is_unclosed (k : keyword) : bool :=
  match k with Unclosed => true | _ => false end.

Definition is_captured (k : keyword) : bool :=
  match k with Captured _ => true | _ => false end.

Definition alternative (k : keyword) : bool * text :=
  match k with
  | Word kw => (false, kw)
  | Captured kw => (true, kw)
  | Unclosed | Other => (false, [])
  end.

(** What [re.compile] makes of the keywords. *)
Inductive compiled : Type :=
| Pattern (alts : list (bool * text))
| Error (e : Py.exn)
| NotModelled.

(** The alternatives of [r"\b|\b".join(keywords)]: the join of no
    keyword is the empty string, which is one empty alternative. *)
Definition pieces (keywords : list string) : list string :=
  match keywords with
  | [] => [""]
  | _ :: _ => keywords
  end.

(** [re.compile(r"(?<=\.)+[^\.]*(?:\b" + r"\b|\b".join(keywords)
    + r"\b).*?\.", flags=re.I | re.S)].  A parenthesis that a keyword
    opens takes the one that should close the alternatives, and the
    pattern is refused; the message is given without its position.
    With two capture groups or more [re.findall] returns tuples, which
    is left out. *)
Definition compile (keywords : list string) : compiled :=
  let forms :=
    map (fun k => parse_keyword (list_ascii_of_string k))
        (pieces keywords) in
  if existsb is_other forms then NotModelled
  else if existsb is_unclosed forms
  then Error (Py.ReError "missing ), unterminated subpattern")
  else if (1 <? List.length (filter is_captured forms))%nat then NotModelled
  else Pattern (map alternative forms).

(** [re.findall(keyword_sentence_pattern, s)]: the matches, or what the
    capture group holds in each match when there is one. *)
Definition findall (alts : list (bool * text)) (s : string)
  : option (list string) :=
  let s := list_ascii_of_string s in
  if ascii_only s then
    Some (map string_of_list_ascii
              (if existsb fst alts
               then findall_group_from alts None 0 s
               else findall_from (map snd alts) None 0 s))
  else None.

(** Compiling and searching in one step, where both are modelled and
    the pattern is accepted. *)
Definition search (keywords : list string) (s : string)
  : option (list string) :=
  match compile keywords with
  | Pattern alts => findall alts s
  | Error _ | NotModelled => None
  end.

(** [re.split(r"[\W\s]+", s)] *)
Fixpoint split_from (cur : text) (in_sep : bool) (s : text) : list text :=
  match s with
  | [] => [rev cur]
  | c :: s' =>
      if is_word c then split_from (c :: cur) false s'
      else if in_sep then split_from cur true s'
           else rev cur :: split_from [] true s'
  end.

Definition split_nonword (s : string) : option (list string) :=
  let s := list_ascii_of_string s in
  if ascii_only s
  then Some (map string_of_list_ascii (split_from [] false s))
  else None.

End Re.

(** ** Requests, the remote service and the fetch loop *)

Module Fetch.

(** One element of the ["items"] array of a response: a JSON object. *)
Definition item := list (string * Py.value).

(** The JSON body of a page, as far as the program reads it. *)
Record results := mkResults
  { items : list item; endIndex : Z; totalItems : Z }.

(** A [requests.Response]: [json = None] when [request.json()] raises. *)
Record response := mkResponse
  { status_code : Z; elapsed : float; json : option results }.

(** What [session.send] does: it returns a response or raises. *)
Inductive outcome : Type :=
| Responded (r : response)
| Failed (name : string).

(** The service answers the [n]-th request sent, given its URL. *)
Definition service := nat -> string -> outcome.

(** The observable actions of a fetch: a request with what came back,
    and a call of [time.sleep]. *)
Inductive event : Type :=
| Send (url : string) (o : outcome)
| Sleep (seconds : Z).

(** [self.request_size]: the integer [0], then a pair. *)
Inductive size : Type :=
| Zero
| Counts (end_index total_items : Z).

(** The mutable part of the object and of the world. *)
Record state := mkState
  { request_time : float;
    request_size : size;
    sent : nat;
    trace : list event }.

(** A run returns, raises, does not end within the turns it was given,
    or leaves what the embedding covers. *)
Inductive result (A : Type) : Type :=
| Return (a : A) (st : state)
| Raise (e : Py.exn) (st : state)
| OutOfFuel
| Unmodelled.
Arguments Return {A} a st.
Arguments Raise {A} e st.
Arguments OutOfFuel {A}.
Arguments Unmodelled {A}.

Definition M (A : Type) : Type := state -> result A.

Definition ret {A} (a : A) : M A := fun st => Return a st.

Definition bind {A B} (m : M A) (k : A -> M B) : M B :=
  fun st =>
    match m st with
    | Return a st' => k a st'
    | Raise e st' => Raise e st'
    | OutOfFuel => OutOfFuel
    | Unmodelled => Unmodelled
    end.

Definition raise {A} (e : Py.exn) : M A := fun st => Raise e st.

Definition unmodelled {A} : M A := fun _ => Unmodelled.

Notation "x <- m ;; k" := (bind m (fun x => k))
  (at level 61, m at next level, right associativity).
Notation "m ;;; k" := (bind m (fun _ => k))
  (at level 61, right associativity).

Definition URL : string :=
  "https://chroniclingamerica.loc.gov/search/pages/results/?".

Definition codes_ok : Z := 200.

(** [Response.raise_for_status] raises for the 4xx and 5xx statuses. *)
Definition raise_for_status (r : response) : bool :=
  (400 <=? status_code r)%Z && (status_code r <? 600)%Z.

Definition second_attempt_message (status : Z) : string :=
  "HTTP " ++ Py.str_of_Z status
          ++ " error after pause and second attempt. Try again later.".

(** [results_max (int)], as the docstrings have it. *)
Definition _fulfilled_query (r : results) (results_max : Z) : bool :=
  let last_page := (endIndex r =? totalItems r)%Z in
  let above_max := (endIndex r >=? results_max)%Z in
  last_page || above_max.

(** The state after a request, after a sleep and after a page has been
    taken into the counters. *)
Definition sent_to (url : string) (o : outcome) (st : state) : state :=
  mkState (request_time st) (request_size st)
          (S (sent st)) (trace st ++ [Send url o]).

Definition slept (seconds : Z) (st : state) : state :=
  mkState (request_time st) (request_size st)
          (sent st) (trace st ++ [Sleep seconds]).

Definition recorded (request : response) (r : results) (st : state)
  : state :=
  mkState (request_time st + elapsed request)%float
          (Counts (endIndex r) (totalItems r))
          (sent st) (trace st).

Section Session.

Variable w : service.
Variable parameters : list Py.value * Py.value * Py.value.

Definition _build_query (rows page : Z) : string :=
  let '(keywords, year_min, year_max) := parameters in
  let query :=
    [ ("ortext", Py.join "+" (map Py.str keywords));
      ("dateFilterType", "yearRange");
      ("date1", Py.str year_min);
      ("date2", Py.str year_max);
      ("format", "json");
      ("rows", Py.str_of_Z rows);
      ("page", Py.str_of_Z page) ] in
  Py.join "&" (map (fun pv => (fst pv ++ "=" ++ snd pv)%string) query).

(** [prepped.url = URL + self._build_query(rows, page)] *)
Definition prepped_url (rows page : Z) : string :=
  (URL ++ _build_query rows page)%string.

(** [session.send(prepped)], with its outcome made a value. *)
Definition session_send (url : string) : M outcome :=
  fun st => Return (w (sent st) url) (sent_to url (w (sent st) url) st).

Definition time_sleep (seconds : Z) : M unit :=
  fun st => Return tt (slept seconds st).

(** The [try] block sleeps, sends and checks the status; the bare
    [except] builds its message from the local [request], which is
    unbound when it was [session.send] that raised. *)
Definition _request_again (url : string) : M response :=
  time_sleep 60 ;;;
  o <- session_send url ;;
  match o with
  | Responded request =>
      if raise_for_status request
      then raise (Py.RuntimeError
                    (second_attempt_message (status_code request)))
      else ret request
  | Failed _ => raise (Py.UnboundLocalError "request")
  end.

(** [results = request.json()] and the three keys read from it; a body
    that is not such a JSON object raises. *)
Definition request_json (request : response) : M results :=
  match json request with
  | Some r => ret r
  | None => raise (Py.ValueError "json")
  end.

(** [self.request_time += ...; self.request_size = (...)] *)
Definition record_page (request : response) (r : results) : M unit :=
  fun st => Return tt (recorded request r st).

(** The [while session:] loop of [_request_data]; a [Session] object
    is always true, so only [break] or an exception leaves it. *)
Fixpoint request_loop (fuel : nat) (results_max rows page : Z)
         (acc : list item) : M (list item) :=
  match fuel with
  | O => fun _ => OutOfFuel
  | S fuel' =>
      let url := prepped_url rows page in
      o <- session_send url ;;
      match o with
      | Failed name => raise (Py.RequestException name)
      | Responded request =>
          request <- (if negb (status_code request =? codes_ok)%Z
                      then _request_again url
                      else ret request) ;;
          r <- request_json request ;;
          let acc := acc ++ items r in
          record_page request r ;;;
          if _fulfilled_query r results_max then ret acc
          else request_loop fuel' results_max rows (page + 1) acc
      end
  end.

Definition _request_data (fuel : nat) (results_max rows page : Z)
  : M (list item) :=
  request_loop fuel results_max rows page [].

(** The end of a turn of the loop, from the page [r] of [request]. *)
Definition page_taken (fuel : nat) (results_max rows page : Z)
           (acc : list item) (request : response) (r : results)
           (st : state) : result (list item) :=
  if _fulfilled_query r results_max
  then Return (acc ++ items r) (recorded request r st)
  else request_loop fuel results_max rows (page + 1) (acc ++ items r)
                    (recorded request r st).

End Session.

(** The state set up by [__init__] before the first request:
    [self.request_time = 0.0], [self.request_size = 0], nothing sent. *)
Definition fresh : state := mkState 0%float Zero 0 [].

(** *** Reading a trace *)

(** The responses received, in order. *)
Fixpoint responses (tr : list event) : list response :=
  match tr with
  | [] => []
  | Send _ (Responded r) :: tr' => r :: responses tr'
  | _ :: tr' => responses tr'
  end.

Definition is_sleep (e : event) : bool :=
  match e with Sleep _ => true | Send _ _ => false end.

(** Some request of the trace was sent a second time. *)
Definition retried (tr : list event) : bool := existsb is_sleep tr.

Definition body_items (r : response) : list item :=
  match json r with Some x => items x | None => [] end.

Definition counts_of (r : response) : size :=
  match json r with
  | Some x => Counts (endIndex x) (totalItems x)
  | None => Zero
  end.

(** [sum] of the durations, added in order as the loop adds them. *)
Definition total_seconds (start : float) (rs : list response) : float :=
  fold_left PrimFloat.add (map elapsed rs) start.

Definition unfulfilled (results_max : Z) (p : response) : Prop :=
  exists r, json p = Some r /\ _fulfilled_query r results_max = false.

Definition fulfilled (results_max : Z) (p : response) : Prop :=
  exists r, json p = Some r /\ _fulfilled_query r results_max = true.

(** A run of the loop from [st] with [acc] to [st'] with [out] took the
    pages [earlier] and then [final] from the responses it received. *)
Definition took_pages (results_max : Z) (acc : list item) (st : state)
           (out : list item) (st' : state)
           (earlier : list response) (final : response) : Prop :=
  let pages := earlier ++ [final] in
  out = acc ++ flat_map body_items pages
  /\ Forall (unfulfilled results_max) earlier
  /\ fulfilled results_max final
  /\ request_time st' = total_seconds (request_time st) pages
  /\ request_size st' = counts_of final
  /\ exists tr, trace st' = trace st ++ tr
                /\ incl pages (responses tr)
                /\ (exists before, responses tr = before ++ [final])
                /\ (retried tr = false -> responses tr = pages).

End Fetch.

(** ** The part of pandas that the program uses *)

Module Frame.

Record date := mkDate { year : Z; month : Z; day : Z }.

Inductive cell : Type :=
| Val (v : Py.value)
| NaN
| Timestamp (d : date)
| NaT
| Sentences (l : list string)
| Float (f : float).

(** A [DataFrame]: column labels and, per row, one cell per column. *)
Record frame := mkFrame
  { columns : list string; rows : list (list cell) }.

Definition mem (c : string) (l : list string) : bool :=
  existsb (String.eqb c) l.

Fixpoint lookup (k : string) (it : Fetch.item) : option Py.value :=
  match it with
  | [] => None
  | (k', v) :: it' => if String.eqb k k' then Some v else lookup k it'
  end.

(** The labels of all the dictionaries, in order of first appearance. *)
Fixpoint add_keys (seen : list string) (keys : list string) : list string :=
  match keys with
  | [] => seen
  | k :: keys' =>
      add_keys (if mem k seen then seen else seen ++ [k]) keys'
  end.

Definition all_keys (items : list Fetch.item) : list string :=
  fold_left (fun seen it => add_keys seen (map fst it)) items [].

(** The cell of a dictionary under a label: [NaN] when it lacks the key. *)
Definition cell_of (it : Fetch.item) (c : string) : cell :=
  match lookup c it with
  | Some v => Val v
  | None => NaN
  end.

(** [pd.DataFrame.from_dict(items, orient="columns")] on a list of
    dictionaries: one column per key, one row per dictionary. *)
Definition from_dict (items : list Fetch.item) : frame :=
  let cols := all_keys items in
  mkFrame cols (map (fun it => map (cell_of it) cols) items).

(** The cell of [row] under the label [c]. *)
Fixpoint at_label (cols : list string) (row : list cell) (c : string)
  : cell :=
  match cols, row with
  | k :: cols', x :: row' =>
      if String.eqb c k then x else at_label cols' row' c
  | _, _ => NaN
  end.

(** [df[labels]]: a [KeyError] when a label is not a column. *)
Definition getitem (df : frame) (labels : list string)
  : Py.exn + frame :=
  if forallb (fun c => mem c (columns df)) labels
  then inr (mkFrame labels
                    (map (fun row => map (at_label (columns df) row) labels)
                         (rows df)))
  else inl (Py.KeyError "not in index").

(** Replace the cell of [row] under the label [c] by [y]. *)
Fixpoint set_label (cols : list string) (row : list cell) (c : string)
         (y : cell) : list cell :=
  match cols, row with
  | k :: cols', x :: row' =>
      if String.eqb c k then y :: row'
      else x :: set_label cols' row' c y
  | _, _ => row
  end.

Fixpoint traverse {A B} (f : A -> option B) (l : list A)
  : option (list B) :=
  match l with
  | [] => Some []
  | a :: l' =>
      match f a, traverse f l' with
      | Some b, Some bs => Some (b :: bs)
      | _, _ => None
      end
  end.

(** The value of a cell of a column of records, when there is one:
    [NaN] and [None] are missing values. *)
Definition present (c : cell) : option Py.value :=
  match c with
  | Val Py.VNone => None
  | Val v => Some v
  | NaN | Timestamp _ | NaT | Sentences _ | Float _ => None
  end.

(** The values of a column that are not missing, in order. *)
Fixpoint present_values (column : list cell) : list Py.value :=
  match column with
  | [] => []
  | c :: column' =>
      match present c with
      | Some v => v :: present_values column'
      | None => present_values column'
      end
  end.

(** The converted column: [NaT] where the value is missing, and the
    dates, in order, where it is present.  [None] when the dates are
    not one per value. *)
Fixpoint converted (column : list cell) (dates : list date)
  : option (list cell) :=
  match column with
  | [] => match dates with [] => Some [] | _ :: _ => None end
  | c :: column' =>
      match present c with
      | None => option_map (cons NaT) (converted column' dates)
      | Some _ =>
          match dates with
          | d :: dates' =>
              option_map (cons (Timestamp d)) (converted column' dates')
          | [] => None
          end
      end
  end.


Section ToDatetime.

(** [pd.to_datetime] on the values of a column that are not missing:
    their dates, one per value, or a failure (the default is
    [errors="raise"]).  The call sees the whole column: whether a value
    is converted may depend on the values around it. *)
Variable to_datetime : list Py.value -> option (list date).

(** [df[c] = pd.to_datetime(df[c])], on a column of values of records.
    Missing values become [NaT]. *)
Definition to_datetime_column (df : frame) (c : string)
  : Py.exn + frame :=
  let column := map (fun row => at_label (columns df) row c) (rows df) in
  match to_datetime (present_values column) with
  | Some dates =>
      match converted column dates with
      | Some column' =>
          inr (mkFrame (columns df)
                       (map (fun ry => set_label (columns df) (fst ry) c
                                                 (snd ry))
                            (combine (rows df) column')))
      | None =>
          inl (Py.ValueError
                 "Length of values does not match length of index")
      end
  | None => inl (Py.ValueError "Unknown string format")
  end.

End ToDatetime.

(** [str(x)] of a cell.  Only values of the records and [NaN] occur in
    the column that the program converts, ["ocr_eng"]. *)
Definition str (c : cell) : string :=
  match c with
  | Val v => Py.str v
  | NaN => "nan"
  | NaT => "NaT"
  | Timestamp _ => "Timestamp"
  | Sentences _ => "[...]"
  | Float _ => "float"
  end.

End Frame.

(** ** The class [ChroniclingAmerica] *)

Module ChroniclingAmerica.

Import Fetch.

Definition COLUMNS : list string :=
  ["date"; "state"; "county"; "city"; "title"; "ocr_eng"].

Definition _valid_parameters
           (parameters : list Py.value * Py.value * Py.value)
  : Py.exn + bool :=
  let '(keywords, year_min, year_max) := parameters in
  if negb (forallb Py.isinstance_str keywords)
  then inl (Py.TypeError "Keywords must be of type string.")
  else if negb (Py.isinstance_int year_min)
          && negb (Py.isinstance_int year_max)
  then inl (Py.TypeError "Years must be of type integer.")
  else inr true.

(** The rows of the dataset, from the records and the converted column
    of their dates: the date comes first in [COLUMNS]. *)
Definition dated_rows (raw_data : list item) (column' : list Frame.cell)
  : list (list Frame.cell) :=
  map (fun iy => snd iy :: map (Frame.cell_of (fst iy)) (tl COLUMNS))
      (combine raw_data column').

Section Environment.

Variable w : service.
Variable to_datetime : list Py.value -> option (list Frame.date).
(** [TextBlob(text).sentiment]: polarity and subjectivity. *)
Variable sentiment : string -> float * float.

Definition lift {A} (x : Py.exn + A) : M A :=
  match x with inl e => raise e | inr a => ret a end.

(** The column ["date"] of the frame of the records. *)
Definition date_column (raw_data : list item) : list Frame.cell :=
  map (fun it => Frame.cell_of it "date") raw_data.

(** The body of [_build_dataset] once the records are there: build the
    frame, select [COLUMNS], parse the ["date"] column. *)
Definition assemble (raw_data : list item) : Py.exn + Frame.frame :=
  let raw_data := Frame.from_dict raw_data in
  match Frame.getitem raw_data COLUMNS with
  | inl e => inl e
  | inr raw_data => Frame.to_datetime_column to_datetime raw_data "date"
  end.

(** The three cells that [_build_sentiment] adds to a row: the two
    [apply] calls and the split of the sentiment into two columns.
    [None] when the text of the row is outside ASCII. *)
Definition enriched (alts : list (bool * Re.text)) (columns : list string)
           (row : list Frame.cell) : option (list Frame.cell) :=
  match Re.findall alts
          (Frame.str (Frame.at_label columns row "ocr_eng")) with
  | Some key_sentences =>
      let '(polarity, subjectivity) :=
        sentiment (Py.join "\n" key_sentences) in
      Some (row ++ [Frame.Sentences key_sentences;
                    Frame.Float polarity; Frame.Float subjectivity])
  | None => None
  end.

(** The pattern is compiled before any row is read.  [apply] on a frame
    without rows is left out; [_build_dataset] never returns one. *)
Definition _build_sentiment (news : Frame.frame) (keywords : list string)
  : M Frame.frame :=
  match Re.compile keywords with
  | Re.Error e => raise e
  | Re.NotModelled => unmodelled
  | Re.Pattern alts =>
      match Frame.rows news with
      | [] => unmodelled
      | _ :: _ =>
          match Frame.traverse (enriched alts (Frame.columns news))
                               (Frame.rows news) with
          | Some rows =>
              ret (Frame.mkFrame
                     (Frame.columns news
                      ++ ["key_sentences"; "polarity"; "subjectivity"])
                     rows)
          | None => unmodelled
          end
      end
  end.

Section Object.

Variable parameters : list Py.value * Py.value * Py.value.

Definition _build_dataset (fuel : nat) (results_max : Z)
  : M Frame.frame :=
  raw_data <- _request_data w parameters fuel results_max 20 1 ;;
  lift (assemble raw_data).

Definition _request_and_analyze (fuel : nat) (results_max : Z)
           (keywords : list Py.value) : M Frame.frame :=
  news <- _build_dataset fuel results_max ;;
  _build_sentiment news (map Py.str keywords).

End Object.

(** The constructor from the keywords as a list: the result is
    [self.news], the final state holds [self.request_time] and
    [self.request_size].  When the parameters are refused nothing has
    been sent. *)
Definition construct (fuel : nat) (keywords : list Py.value)
           (year_min year_max : Py.value) (results_max : Z)
  : result Frame.frame :=
  let parameters := (keywords, year_min, year_max) in
  match _valid_parameters parameters with
  | inl e => Raise e fresh
  | inr _ => _request_and_analyze parameters fuel results_max keywords fresh
  end.

(** A string is cut into words first.  The words of a string outside
    ASCII are not modelled; they are strings whatever they are, so the
    check of the keywords passes and the check of the years is the one
    of any list of strings. *)
Definition __init__ (fuel : nat) (keywords : Py.keywords_arg)
           (year_min year_max : Py.value) (results_max : Z)
  : result Frame.frame :=
  match keywords with
  | Py.KwStr s =>
      match Re.split_nonword s with
      | Some words =>
          construct fuel (map Py.VStr words) year_min year_max results_max
      | None =>
          match _valid_parameters ([], year_min, year_max) with
          | inl e => Raise e fresh
          | inr _ => Unmodelled
          end
      end
  | Py.KwList l => construct fuel l year_min year_max results_max
  end.

End Environment.

End ChroniclingAmerica.

(** ** Services and sample data *)

Module Service.

Import Fetch.

(** Page [p] (from 1) of a corpus served [rows] records at a time. *)
Definition page_results (corpus : list item) (rows p : nat) : results :=
  mkResults (firstn rows (skipn ((p - 1) * rows) corpus))
            (Z.of_nat (Nat.min (p * rows) (List.length corpus)))
            (Z.of_nat (List.length corpus)).

(** Page 1 always exists; a later page exists when it is not empty. *)
Definition page_exists (corpus : list item) (rows p : nat) : Prop :=
  p = 1%nat \/ (1 <= p /\ (p - 1) * rows < List.length corpus)%nat.

Definition page_url (parameters : list Py.value * Py.value * Py.value)
           (rows p : nat) : string :=
  prepped_url parameters (Z.of_nat rows) (Z.of_nat p).

(** A well-formed paginated service: whenever it is asked for an
    existing page it answers 200 with that page. *)
Definition paginated (w : service)
           (parameters : list Py.value * Py.value * Py.value)
           (corpus : list item) (rows : nat) : Prop :=
  forall n p, page_exists corpus rows p ->
    exists r, w n (page_url parameters rows p) = Responded r
              /\ status_code r = codes_ok
              /\ json r = Some (page_results corpus rows p).

(** The records of the pages 1 to [n], page after page. *)
Definition pages_through (corpus : list item) (rows n : nat) : list item :=
  flat_map (fun j => items (page_results corpus rows j)) (seq 1 n).

(** A service for the pages [1..k] of a corpus, each answered in
    [seconds]; any other request is refused. *)
Fixpoint serve (parameters : list Py.value * Py.value * Py.value)
         (corpus : list item) (rows : nat) (seconds : float) (k : nat)
  : service :=
  fun n url =>
    match k with
    | O => Failed "ConnectionError"
    | S k' =>
        if String.eqb url (page_url parameters rows k)
        then Responded (mkResponse codes_ok seconds
                                   (Some (page_results corpus rows k)))
        else serve parameters corpus rows seconds k' n url
    end.

(** The first [k] requests get the scripted outcomes, later ones are
    answered by [then_]. *)
Definition scripted (script : list outcome) (then_ : service) : service :=
  fun n url =>
    match nth_error script n with
    | Some o => o
    | None => then_ (n - List.length script)%nat url
    end.

End Service.

Module Sample.

Import Fetch.

Definition record (date text : string) : item :=
  [ ("date", Py.VStr date); ("state", Py.VStr "Illinois");
    ("county", Py.VStr "Cook"); ("city", Py.VStr "Chicago");
    ("title", Py.VStr "The Day Book"); ("ocr_eng", Py.VStr text);
    ("page", Py.VStr "3") ].

Definition drought_text : string :=
  "Rain fell. Crops failed due to drought. Markets rallied.".

Definition corpus : list item :=
  [ record "19000101" drought_text;
    record "19000102" "Drought struck. Rain fell.";
    record "19000103" "" ].

Definition parameters : list Py.value * Py.value * Py.value :=
  ([Py.VStr "drought"], Py.VInt 1900, Py.VInt 1900).

(** Two records a page: the corpus has two pages. *)
Definition two_pages : service :=
  Service.serve parameters corpus 2 0.25%float 2.

(** Twenty records a page: the corpus fits in one page. *)
Definition one_page : service :=
  Service.serve parameters corpus 20 0.25%float 1.

(** The state in which the fetch of the two pages ends. *)
Definition after_two_pages : state :=
  mkState 0.5%float (Counts 3 3) 2
          [ Send (Service.page_url parameters 2 1)
                 (two_pages 0%nat (Service.page_url parameters 2 1));
            Send (Service.page_url parameters 2 2)
                 (two_pages 1%nat (Service.page_url parameters 2 2)) ].

(** *** Services that fail *)

Definition url1 : string := Service.page_url parameters 20 1.

Definition whole_corpus : results := Service.page_results corpus 20 1.

Definition unavailable : response := mkResponse 503 1%float None.

Definition answer : response :=
  mkResponse 200 2%float (Some whole_corpus).

Definition multiple_choices : response :=
  mkResponse 300 2%float (Some whole_corpus).

Definition refused : service := fun _ _ => Failed "ConnectionError".

(** 503, then the page. *)
Definition error_then_page : service :=
  Service.scripted [Responded unavailable; Responded answer] refused.

(** 503, then 300 with the page as its body. *)
Definition error_then_300 : service :=
  Service.scripted [Responded unavailable; Responded multiple_choices]
                   refused.

(** 503 twice. *)
Definition error_twice : service :=
  Service.scripted [Responded unavailable; Responded unavailable] refused.

(** The connection fails once; a second request would be answered. *)
Definition network_error_then_page : service :=
  Service.scripted [Failed "ConnectionError"; Responded answer] refused.

(** *** Records with a defect *)



Definition digits (s : string) : option Z :=
  option_map Z.of_uint (NilZero.uint_of_string s).

(** A date written [YYYYMMDD], as the service writes it. *)
Definition yyyymmdd (v : Py.value) : option Frame.date :=
  match v with
  | Py.VStr s =>
      if (String.length s =? 8)%nat then
        match digits (substring 0 4 s), digits (substring 4 2 s),
              digits (substring 6 2 s) with
        | Some y, Some m, Some d =>
            if ((1 <=? m) && (m <=? 12) && (1 <=? d) && (d <=? 31))%Z
            then Some (Frame.mkDate y m d) else None
        | _, _, _ => None
        end
      else None
  | _ => None
  end.

(** A stand-in for [pd.to_datetime]: it accepts the columns in which
    every date is written [YYYYMMDD]. *)
Definition to_datetime (values : list Py.value) : option (list Frame.date) :=
  Frame.traverse yyyymmdd values.

(** A stand-in for TextBlob: neutral on the empty text. *)
Definition sentiment (s : string) : float * float :=
  if String.eqb s "" then (0%float, 0%float)
  else ((-0.25)%float, 0.5%float).




(** The dataset of the sample corpus. *)
Definition news : Frame.frame :=
  match ChroniclingAmerica.assemble to_datetime corpus with
  | inr df => df
  | inl _ => Frame.mkFrame [] []
  end.

End Sample.

(** ** Sentences, as the specification describes them *)

Module Sentences.

Import Re.

(** [s.split(".")]: the run before the first period and the runs after
    each period. *)
Fixpoint split_periods (s : text) : text * list text :=
  match s with
  | [] => ([], [])
  | c :: s' =>
      let (r, rs) := split_periods s' in
      if is_period c then ([], r :: rs) else (c :: r, rs)
  end.

(** The runs that end in a period, without that period: every run but
    the last one. *)
Definition sentences (s : text) : list text :=
  let (r, rs) := split_periods s in removelast (r :: rs).

(** The sentences that follow a period. *)
Definition later_sentences (s : text) : list text :=
  removelast (snd (split_periods s)).

Definition is_some {A} (o : option A) : bool :=
  match o with Some _ => true | None => false end.

(** Some keyword matches as a whole word, ignoring case, somewhere in
    [seg], which follows the character [before]. *)
Fixpoint occurs_from (kws : list text) (before : option ascii) (seg : text)
  : bool :=
  existsb (fun kw => is_some (word_at kw before seg)) kws
  || match seg with
     | [] => false
     | c :: seg' => occurs_from kws (Some c) seg'
     end.

Definition contains_keyword (kws : list text) (seg : text) : bool :=
  occurs_from kws None seg.

Definition terminate (seg : text) : text := seg ++ [period].

(** Selection as the specification words it: every sentence that
    contains a keyword. *)
Definition selected_spec (kws : list text) (s : text) : list text :=
  map terminate (filter (contains_keyword kws) (sentences s)).

(** Selection among the sentences that follow a period. *)
Definition selected (kws : list text) (s : text) : list text :=
  map terminate (filter (contains_keyword kws) (later_sentences s)).

(** A keyword without a period in it. *)
Definition plain (kw : text) : Prop :=
  Forall (fun c => is_period c = false) kw.

Definition no_period (s : text) : Prop :=
  Forall (fun c => is_period c = false) s.

Definition chars (s : string) : text := list_ascii_of_string s.

(** The two selections on strings. *)
Definition selection_spec (keywords : list string) (s : string)
  : list string :=
  map string_of_list_ascii (selected_spec (map chars keywords) (chars s)).

Definition selection (keywords : list string) (s : string) : list string :=
  map string_of_list_ascii (selected (map chars keywords) (chars s)).

Definition plain_keyword (kw : string) : Prop := plain (chars kw).

(** The position follows a period. *)
Definition after_period (b : option ascii) : bool :=
  match b with Some c => is_period c | None => false end.

(** The character before the position reached after reading [a]. *)
Definition last_or (b : option ascii) (a : text) : option ascii :=
  match rev a with c :: _ => Some c | [] => b end.

End Sentences.

(** ** Keywords given as one string *)

Module Keywords.

Import Re.

(** A string made of word characters only. *)
Definition is_words (kw : string) : Prop :=
  Forall (fun c => is_word c = true) (list_ascii_of_string kw).

(** A string in ASCII. *)
Definition in_ascii (s : string) : Prop :=
  ascii_only (list_ascii_of_string s) = true.

(** A keyword in ASCII without any operator of the pattern syntax. *)
Definition verbatim (kw : string) : Prop :=
  forallb is_literal (list_ascii_of_string kw) = true.

(** The word characters of a string, in order. *)
Definition word_chars (s : string) : string :=
  string_of_list_ascii (filter is_word (list_ascii_of_string s)).

(** The sentences after the first that have a word character, each with
    its period. *)
Definition wordy_selection (s : string) : list string :=
  map string_of_list_ascii
      (map Sentences.terminate
           (filter (existsb is_word)
                   (Sentences.later_sentences (list_ascii_of_string s)))).

(** Two characters, two strings that differ at most in the case of their
    letters. *)
Definition same_letter (a b : ascii) : Prop := lower a = lower b.

Definition same_letters (a b : string) : Prop :=
  Forall2 same_letter (list_ascii_of_string a) (list_ascii_of_string b).

(** [gaps] and [parts] laid out in turn: a gap, a part, a gap, ... *)
Fixpoint weave (gaps parts : list text) : text :=
  match gaps, parts with
  | g :: gaps', m :: parts' => g ++ m ++ weave gaps' parts'
  | g :: _, [] => g
  | [], _ => []
  end.

End Keywords.

(** ** The requests of a fetch, page by page *)

Module Discipline.

Import Fetch.

(** The events of the turns of the loop for the pages [p] to [q - 1]: a
    page is requested once, or twice with one sleep of 60 seconds between
    the two requests, the second one only after an answer whose status is
    not 200. *)
Inductive turns (url : Z -> string) : Z -> list event -> Z -> Prop :=
| turns_done (p : Z) : turns url p [] p
| turns_once (p q : Z) (o : outcome) (tr : list event) :
    turns url (p + 1) tr q ->
    turns url p (Send (url p) o :: tr) q
| turns_twice (p q : Z) (first : response) (o : outcome)
              (tr : list event) :
    status_code first <> codes_ok ->
    turns url (p + 1) tr q ->
    turns url p (Send (url p) (Responded first) :: Sleep 60
                 :: Send (url p) o :: tr) q.

(** The pages that a fetch takes from the responses it receives, in
    order: the response to the request of a page when its status is
    200; otherwise the next response, which is the one to the second
    request, taken only when its status is not an error status. *)
Inductive taken : list response -> list response -> Prop :=
| taken_none : taken [] []
| taken_first (p : response) (rs ps : list response) :
    status_code p = 200%Z ->
    taken rs ps ->
    taken (p :: rs) (p :: ps)
| taken_second (first p : response) (rs ps : list response) :
    status_code first <> 200%Z ->
    ~ (400 <= status_code p < 600)%Z ->
    taken rs ps ->
    taken (first :: p :: rs) (p :: ps).

Definition sends (tr : list event) : nat :=
  List.length (filter (fun e => negb (is_sleep e)) tr).

Definition sleeps (tr : list event) : nat :=
  List.length (filter is_sleep tr).

(** The state in which a run ended, when it ended. *)
Definition final_state {A} (r : result A) : option state :=
  match r with
  | Return _ st | Raise _ st => Some st
  | OutOfFuel | Unmodelled => None
  end.

End Discipline.

(** ** The object once constructed, and the log *)

Module Methods.

(** [__len__]: [self.news.shape[0]] *)
Definition __len__ (news : Frame.frame) : Z :=
  Z.of_nat (List.length (Frame.rows news)).



(** [log_path = keywords[0] + "-log.csv"] *)
Definition log_path (keywords : list string) : string :=
  (hd "" keywords ++ "-log.csv")%string.

End Methods.

(** ** The driver [run] *)

Module Driver.

(** [range(a, b)] *)
Definition range (a b : Z) : list Z :=
  map (fun k => (a + Z.of_nat k)%Z) (seq 0 (Z.to_nat (b - a))).

(** One turn of the loop of [run]: the years of a query and the file it
    is written to. *)
Record batch := mkBatch
  { csv_path : string; temp_min : Z; temp_max : Z }.

(** [(year_max - year_min) // year_incr + 1]; [//] rounds down, as
    [Z.div] does for a divisor that is not zero. *)
Definition num_exports (year_min year_max year_incr : Z) : Z :=
  ((year_max - year_min) / year_incr + 1)%Z.

Definition nth_export (keywords : list string)
           (year_min year_max year_incr : Z) (export : Z) : batch :=
  let temp_min := (year_min + year_incr * (export - 1))%Z in
  let temp_max := Z.min (temp_min + year_incr - 1) year_max in
  let csv_path :=
    (Py.join "-" [hd "" keywords; Py.str_of_Z temp_min;
                  Py.str_of_Z temp_max] ++ ".csv")%string in
  mkBatch csv_path temp_min temp_max.

(** The exports that [run] goes through, in order, from the arguments
    once they are read; the division raises when [year_incr] is zero. *)
Inductive plan : Type :=
| ZeroDivisionError
| Exports (l : list batch).

Definition exports (keywords : list string)
           (year_min year_max year_incr : Z) : plan :=
  if (year_incr =? 0)%Z then ZeroDivisionError
  else
    let n := num_exports year_min year_max year_incr in
    Exports (map (nth_export keywords year_min year_max year_incr)
                 (range 1 (n + 1))).

(** The parameters that [run] gives to the constructor for an export:
    command-line keywords are strings, the years are integers. *)
Definition parameters_of (keywords : list string) (e : batch)
  : list Py.value * Py.value * Py.value :=
  (map Py.VStr keywords, Py.VInt (temp_min e), Py.VInt (temp_max e)).

End Driver.

(** ** More sample services *)

Module Cases.

Import Fetch.

(** 503, then the connection fails. *)
Definition error_then_network_error : service :=
  Service.scripted [Responded Sample.unavailable; Failed "ConnectionError"]
                   Sample.refused.


(** The service of a corpus in which nothing matches the query. *)
Definition no_hits : service :=
  Service.serve Sample.parameters [] 20 0.25%float 1.




End Cases.

(** * Properties *)

(** ** The keyword-sentence pattern *)

Section PatternFacts.

Import Re Sentences.

Variable kws : list text.

Lemma period_is_not_word : is_word period = false.
Proof. reflexivity. Qed.

Lemma is_period_true (c : ascii) : is_period c = true -> c = period.
Proof. unfold is_period. apply Ascii.eqb_eq. Qed.

(** Case folding never produces or removes a period. *)
Lemma eq_nocase_period (k : ascii) :
  is_period k = false -> eq_nocase k period = false.
Proof.
  destruct k as [[] [] [] [] [] [] [] []]; vm_compute; congruence.
Qed.

Lemma no_period_app (a b : text) :
  no_period (a ++ b) <-> no_period a /\ no_period b.
Proof. apply Forall_app. Qed.

(** *** Without a period ahead the pattern cannot match *)

Lemma lazy_period_none (s : text) : no_period s -> lazy_period s = None.
Proof.
  induction 1 as [|c s Hc _ IH]; simpl; [reflexivity|].
  now rewrite Hc, IH.
Qed.

Lemma no_period_skipn (n : nat) (s : text) :
  no_period s -> no_period (skipn n s).
Proof.
  intros H. rewrite <- (firstn_skipn n s) in H.
  now apply no_period_app in H.
Qed.

Lemma alternatives_none (l : list text) (b : option ascii) (s : text) :
  no_period s -> alternatives l b s = None.
Proof.
  intros H. induction l as [|kw l IH]; simpl; [reflexivity|].
  destruct (word_at kw b s) as [n|]; [|exact IH].
  now rewrite (lazy_period_none _ (no_period_skipn n s H)).
Qed.

Lemma greedy_class_none (s : text) :
  no_period s -> forall b, greedy_class kws b s = None.
Proof.
  induction 1 as [|c s Hc Hs IH]; intros b; simpl.
  - apply alternatives_none. constructor.
  - rewrite Hc, IH. apply alternatives_none. now constructor.
Qed.

Lemma findall_no_period (s : text) :
  no_period s -> forall b, findall_from kws b 0 s = [].
Proof.
  induction 1 as [|c s Hc Hs IH]; intros b; simpl; [reflexivity|].
  assert (keyword_sentence_pattern kws b (c :: s) = None) as ->.
  { unfold keyword_sentence_pattern. destruct b as [c0|]; [|reflexivity].
    destruct (is_period c0); [|reflexivity].
    apply greedy_class_none. now constructor. }
  apply IH.
Qed.

(** *** The lookbehind *)

Lemma pattern_needs_period (b : option ascii) (s : text) :
  after_period b = false -> keyword_sentence_pattern kws b s = None.
Proof.
  unfold keyword_sentence_pattern, after_period.
  destruct b as [c|]; [|reflexivity]. now intros ->.
Qed.

Lemma alternatives_between_periods (l : list text) (rest : text) :
  alternatives l (Some period) (period :: rest) = None.
Proof.
  induction l as [|kw l IH]; [reflexivity|].
  cbn [alternatives].
  assert (word_at kw (Some period) (period :: rest) = None) as ->
      by reflexivity.
  exact IH.
Qed.

Lemma pattern_at_period (b : option ascii) (rest : text) :
  keyword_sentence_pattern kws b (period :: rest) = None.
Proof.
  unfold keyword_sentence_pattern.
  destruct b as [c|]; [|reflexivity].
  destruct (is_period c) eqn:Hc; [|reflexivity].
  apply is_period_true in Hc. subst c.
  apply alternatives_between_periods.
Qed.

(** Scanning from inside a run reaches the next period unchanged. *)
Lemma findall_to_period (seg rest : text) :
  no_period seg -> forall b, after_period b = false \/ seg = [] ->
  findall_from kws b 0 (seg ++ period :: rest)
  = findall_from kws (Some period) 0 rest.
Proof.
  induction 1 as [|c seg Hc Hs IH]; intros b Hb.
  - simpl app. cbn [findall_from]. now rewrite pattern_at_period.
  - destruct Hb as [Hb|Hb]; [|discriminate].
    simpl app. cbn [findall_from].
    rewrite (pattern_needs_period _ _ Hb).
    apply IH. left. exact Hc.
Qed.

Lemma last_or_cons (b : option ascii) (c : ascii) (a : text) :
  last_or b (c :: a) = last_or (Some c) a.
Proof.
  unfold last_or. simpl. destruct (rev a) as [|x l] eqn:E; reflexivity.
Qed.

(** Passing over the characters of a match. *)
Lemma findall_skip (a t : text) (b : option ascii) :
  findall_from kws b (List.length a) (a ++ t)
  = findall_from kws (last_or b a) 0 t.
Proof.
  revert b. induction a as [|c a IH]; intros b.
  - reflexivity.
  - simpl. rewrite IH. now rewrite last_or_cons.
Qed.

(** *** A keyword found inside a run *)

Lemma lazy_period_run (seg rest : text) :
  no_period seg -> lazy_period (seg ++ period :: rest)
                   = Some (S (List.length seg)).
Proof.
  induction 1 as [|c seg Hc _ IH]; simpl; [reflexivity|].
  now rewrite Hc, IH.
Qed.

(** A plain keyword cannot reach across the period that ends a run. *)
Lemma literal_run (kw seg rest : text) :
  plain kw -> forall b,
  literal kw b (seg ++ period :: rest)
  = option_map (fun p => (fst p, snd p ++ period :: rest))
               (literal kw b seg).
Proof.
  intros Hkw. revert seg.
  induction Hkw as [|k kw Hk _ IH]; intros seg b; [reflexivity|].
  destruct seg as [|c seg]; simpl.
  - now rewrite (eq_nocase_period _ Hk).
  - destruct (eq_nocase k c); [apply IH|reflexivity].
Qed.

Lemma literal_length (kw : text) :
  forall b s b' s', literal kw b s = Some (b', s') ->
  s = firstn (List.length kw) s ++ s'
  /\ (List.length kw <= List.length s)%nat.
Proof.
  induction kw as [|k kw IH]; intros b s b' s' H; simpl in H.
  - injection H as _ <-. split; [reflexivity|simpl; lia].
  - destruct s as [|c s]; [discriminate|].
    destruct (eq_nocase k c); [|discriminate].
    apply IH in H as [H1 H2]. split; simpl; [now f_equal|lia].
Qed.

Lemma boundary_run (b : option ascii) (seg rest : text) :
  boundary b (seg ++ period :: rest) = boundary b seg.
Proof. destruct seg; reflexivity. Qed.

Lemma word_at_run (kw seg rest : text) (b : option ascii) :
  plain kw ->
  word_at kw b (seg ++ period :: rest) = word_at kw b seg.
Proof.
  intros Hkw. unfold word_at.
  rewrite boundary_run, (literal_run _ _ _ Hkw).
  destruct (literal kw b seg) as [[b' s']|]; simpl; [|reflexivity].
  now rewrite boundary_run.
Qed.

Lemma word_at_length (kw s : text) (b : option ascii) (n : nat) :
  word_at kw b s = Some n -> (n <= List.length s)%nat.
Proof.
  unfold word_at. destruct (boundary b s); [|discriminate].
  destruct (literal kw b s) as [[b' s']|] eqn:E; [|discriminate].
  destruct (boundary b' s'); [|discriminate].
  intros [= <-]. now apply literal_length in E.
Qed.

Lemma alternatives_run (l : list text) (seg rest : text)
      (b : option ascii) :
  Forall plain l -> no_period seg ->
  alternatives l b (seg ++ period :: rest)
  = if existsb (fun kw => is_some (word_at kw b seg)) l
    then Some (S (List.length seg)) else None.
Proof.
  intros Hl Hseg. induction Hl as [|kw l Hkw _ IH]; [reflexivity|].
  cbn [alternatives existsb]. rewrite (word_at_run _ _ _ _ Hkw).
  destruct (word_at kw b seg) as [n|] eqn:E; simpl; [|exact IH].
  apply word_at_length in E.
  rewrite skipn_app.
  replace (n - List.length seg)%nat with 0%nat by lia. simpl skipn.
  rewrite lazy_period_run by now apply no_period_skipn.
  rewrite length_skipn. f_equal. lia.
Qed.

Lemma greedy_class_run (seg rest : text) :
  Forall plain kws -> no_period seg -> forall b,
  greedy_class kws b (seg ++ period :: rest)
  = if occurs_from kws b seg then Some (S (List.length seg)) else None.
Proof.
  intros Hk Hseg.
  induction Hseg as [|c seg Hc Hs IH]; intros b.
  - pose proof (alternatives_run kws [] rest b Hk) as A.
    simpl app in *. cbn [greedy_class occurs_from].
    assert (is_period period = true) as -> by reflexivity.
    rewrite A by constructor. now rewrite orb_false_r.
  - simpl app. cbn [greedy_class occurs_from]. rewrite Hc, IH.
    destruct (occurs_from kws (Some c) seg).
    + now rewrite orb_true_r.
    + rewrite orb_false_r.
      apply (alternatives_run kws (c :: seg) rest b Hk).
      now constructor.
Qed.

(** Only whether the previous character is a word character matters. *)
Lemma word_at_before (kw s : text) (b b' : option ascii) :
  word_before b = word_before b' -> word_at kw b s = word_at kw b' s.
Proof.
  intros H. unfold word_at, boundary. rewrite H.
  destruct kw as [|k kw]; simpl; [now rewrite H|].
  destruct s as [|c s]; reflexivity.
Qed.

Lemma some_word_at_before (l : list text) (s : text)
      (b b' : option ascii) :
  word_before b = word_before b' ->
  existsb (fun kw => is_some (word_at kw b s)) l
  = existsb (fun kw => is_some (word_at kw b' s)) l.
Proof.
  intros H. induction l as [|kw l IH]; [reflexivity|].
  cbn [existsb]. now rewrite IH, (word_at_before _ _ _ _ H).
Qed.

Lemma occurs_from_before (seg : text) (b b' : option ascii) :
  word_before b = word_before b' ->
  occurs_from kws b seg = occurs_from kws b' seg.
Proof.
  intros H. destruct seg as [|c seg]; cbn [occurs_from];
    now rewrite (some_word_at_before _ _ _ _ H).
Qed.

Lemma no_word_at_end (l : list text) (b : option ascii) :
  word_before b = false ->
  existsb (fun kw => is_some (word_at kw b [])) l = false.
Proof.
  intros H. induction l as [|kw l IH]; [reflexivity|].
  cbn [existsb]. rewrite IH, orb_false_r.
  unfold word_at, boundary. now rewrite H.
Qed.

Lemma contains_keyword_nil : contains_keyword kws [] = false.
Proof.
  unfold contains_keyword. cbn [occurs_from].
  now rewrite no_word_at_end.
Qed.

(** *** Runs and sentences *)

Lemma run_or_period (s : text) :
  exists seg, no_period seg
              /\ (s = seg \/ exists rest, s = seg ++ period :: rest).
Proof.
  induction s as [|c s (seg & Hseg & IH)].
  - exists []. split; [constructor|now left].
  - destruct (is_period c) eqn:Hc.
    + exists []. split; [constructor|]. right. exists s.
      now rewrite (is_period_true _ Hc).
    + exists (c :: seg). split; [now constructor|].
      destruct IH as [->|(rest & ->)]; [now left|].
      right. now exists rest.
Qed.

Lemma split_periods_run (seg : text) :
  no_period seg -> split_periods seg = (seg, []).
Proof.
  induction 1 as [|c seg Hc _ IH]; simpl; [reflexivity|].
  now rewrite IH, Hc.
Qed.

Lemma split_periods_period (seg rest : text) :
  no_period seg ->
  split_periods (seg ++ period :: rest)
  = (seg, fst (split_periods rest) :: snd (split_periods rest)).
Proof.
  induction 1 as [|c seg Hc _ IH]; simpl.
  - now destruct (split_periods rest).
  - now rewrite IH, Hc.
Qed.

Lemma sentences_run (seg : text) : no_period seg -> sentences seg = [].
Proof.
  intros H. unfold sentences. now rewrite (split_periods_run _ H).
Qed.

Lemma sentences_period (seg rest : text) :
  no_period seg ->
  sentences (seg ++ period :: rest) = seg :: sentences rest.
Proof.
  intros H. unfold sentences. rewrite (split_periods_period _ _ H).
  now destruct (split_periods rest).
Qed.

Lemma later_sentences_run (seg : text) :
  no_period seg -> later_sentences seg = [].
Proof.
  intros H. unfold later_sentences. now rewrite (split_periods_run _ H).
Qed.

Lemma later_sentences_period (seg rest : text) :
  no_period seg ->
  later_sentences (seg ++ period :: rest) = sentences rest.
Proof.
  intros H. unfold later_sentences, sentences.
  rewrite (split_periods_period _ _ H). now destruct (split_periods rest).
Qed.

(** *** The matches of [findall] *)

Lemma last_or_terminated (b : option ascii) (seg : text) :
  last_or b (seg ++ [period]) = Some period.
Proof. unfold last_or. now rewrite rev_app_distr. Qed.

(** The scan at the start of a run that a period ends. *)
Lemma findall_run (seg rest : text) :
  Forall plain kws -> no_period seg ->
  findall_from kws (Some period) 0 (seg ++ period :: rest)
  = (if contains_keyword kws seg then [terminate seg] else [])
      ++ findall_from kws (Some period) 0 rest.
Proof.
  intros Hk Hseg. destruct seg as [|c seg].
  - rewrite contains_keyword_nil.
    apply (findall_to_period [] rest Hseg). now right.
  - pose proof (greedy_class_run (c :: seg) rest Hk Hseg (Some period))
      as G.
    rewrite (occurs_from_before (c :: seg) (Some period) None) in G
      by reflexivity.
    fold (contains_keyword kws (c :: seg)) in G.
    simpl app in *. cbn [findall_from].
    unfold keyword_sentence_pattern.
    assert (is_period period = true) as -> by reflexivity.
    rewrite G. inversion Hseg as [|? ? Hc Hs]; subst.
    destruct (contains_keyword kws (c :: seg)).
    + simpl app. f_equal.
      * change (c :: seg ++ period :: rest)
          with ((c :: seg) ++ period :: rest).
        replace (S (List.length (c :: seg)))
          with (List.length (c :: seg) + 1)%nat by lia.
        rewrite firstn_app_2. reflexivity.
      * replace (List.length (c :: seg))
          with (List.length (seg ++ [period]))
          by (rewrite length_app; simpl; lia).
        replace (seg ++ period :: rest) with ((seg ++ [period]) ++ rest)
          by now rewrite <- app_assoc.
        now rewrite findall_skip, last_or_terminated.
    + apply (findall_to_period seg rest Hs). now left.
Qed.

(** After a period, every sentence of the remaining text is tried. *)
Lemma findall_after_period :
  Forall plain kws -> forall n s, (List.length s <= n)%nat ->
  findall_from kws (Some period) 0 s
  = map terminate (filter (contains_keyword kws) (sentences s)).
Proof.
  intros Hk. induction n as [|n IH]; intros s Hn.
  - destruct s; [reflexivity|simpl in Hn; lia].
  - destruct (run_or_period s) as (seg & Hseg & [->|(rest & ->)]).
    + now rewrite (sentences_run _ Hseg), findall_no_period.
    + rewrite (sentences_period _ _ Hseg), (findall_run _ _ Hk Hseg).
      rewrite IH by (rewrite length_app in Hn; simpl in Hn; lia).
      cbn [filter]. now destruct (contains_keyword kws seg).
Qed.

(** From the start of the text, only the sentences that follow a period
    are tried. *)
Lemma findall_from_start (s : text) :
  Forall plain kws -> findall_from kws None 0 s = selected kws s.
Proof.
  intros Hk. unfold selected.
  destruct (run_or_period s) as (seg & Hseg & [->|(rest & ->)]).
  - now rewrite (later_sentences_run _ Hseg), findall_no_period.
  - rewrite (later_sentences_period _ _ Hseg).
    rewrite (findall_to_period seg rest Hseg) by now left.
    now apply (findall_after_period Hk (List.length rest)).
Qed.

(** The first run of the text plays no part. *)
Lemma findall_first_run (first rest : text) :
  no_period first ->
  findall_from kws None 0 (first ++ period :: rest)
  = findall_from kws None 0 (period :: rest).
Proof.
  intros H. rewrite (findall_to_period first rest H) by now left.
  symmetry. apply (findall_to_period [] rest); [constructor|now left].
Qed.

(** Every match starts right after a period. *)
Lemma findall_preceded (s : text) :
  forall pre b skip m, b = last_or None pre ->
  In m (findall_from kws b skip s) ->
  exists p q, pre ++ s = p ++ period :: m ++ q.
Proof.
  induction s as [|c s IH]; intros pre b skip m Hb Hin; [destruct Hin|].
  assert (forall k, In m (findall_from kws (Some c) k s) ->
                    exists p q, pre ++ c :: s = p ++ period :: m ++ q)
    as Next.
  { intros k Hk. destruct (IH (pre ++ [c]) (Some c) k m) as (p & q & E).
    - unfold last_or. now rewrite rev_app_distr.
    - exact Hk.
    - exists p, q. now rewrite <- E, <- app_assoc. }
  cbn [findall_from] in Hin. destruct skip as [|k]; [|now apply (Next k)].
  destruct (keyword_sentence_pattern kws b (c :: s)) as [[|n]|] eqn:E;
    [now apply (Next 0%nat)| |now apply (Next 0%nat)].
  destruct Hin as [<-|Hin]; [|now apply (Next n)].
  unfold keyword_sentence_pattern in E.
  destruct b as [c0|]; [|discriminate].
  destruct (is_period c0) eqn:Hc0; [|discriminate].
  apply is_period_true in Hc0. subst c0.
  unfold last_or in Hb. destruct (rev pre) as [|x l] eqn:R; [discriminate|].
  injection Hb as <-.
  exists (rev l), (skipn (S n) (c :: s)).
  rewrite firstn_skipn.
  rewrite <- (rev_involutive pre), R. simpl. now rewrite <- app_assoc.
Qed.

End PatternFacts.

Section StringFacts.

Import Re Sentences.

Lemma chars_app (a b : string) : chars (a ++ b) = chars a ++ chars b.
Proof. induction a as [|c a IH]; simpl; [reflexivity|now rewrite IH]. Qed.

Lemma string_of_app (a b : text) :
  string_of_list_ascii (a ++ b)
  = (string_of_list_ascii a ++ string_of_list_ascii b)%string.
Proof. induction a as [|c a IH]; simpl; [reflexivity|now rewrite IH]. Qed.

Lemma plain_keywords (keywords : list string) :
  Forall plain_keyword keywords -> Forall plain (map chars keywords).
Proof. intros H. apply Forall_map. exact H. Qed.

End StringFacts.

(** ** Keywords without operators *)

Section LiteralFacts.

Import Re Sentences Keywords.

Lemma literal_is_not_period (c : ascii) :
  is_literal c = true -> is_period c = false.
Proof.
  intros H. destruct (is_period c) eqn:E; [|reflexivity].
  apply Ascii.eqb_eq in E. subst c. discriminate.
Qed.

Lemma verbatim_is_plain (kw : string) : verbatim kw -> plain_keyword kw.
Proof.
  unfold verbatim, plain_keyword, plain, chars. intros H.
  apply Forall_forall. intros c Hc. apply literal_is_not_period.
  now apply (proj1 (forallb_forall _ _) H).
Qed.

Lemma pieces_literal (keywords : list string) :
  Forall verbatim keywords -> Forall verbatim (pieces keywords).
Proof.
  intros H. destruct keywords as [|k l]; [|exact H].
  constructor; [reflexivity|constructor].
Qed.

Lemma parse_literal (kw : string) :
  verbatim kw -> parse_keyword (list_ascii_of_string kw) = Word (chars kw).
Proof. unfold verbatim, parse_keyword. now intros ->. Qed.

Lemma forms_of_literals (l : list string) :
  Forall verbatim l ->
  map (fun k => parse_keyword (list_ascii_of_string k)) l
  = map (fun k => Word (chars k)) l.
Proof.
  induction 1 as [|k l Hk _ IH]; [reflexivity|].
  cbn [map]. now rewrite IH, (parse_literal _ Hk).
Qed.

Lemma words_have_no_form (l : list string) (f : keyword -> bool) :
  (forall kw, f (Word kw) = false) ->
  existsb f (map (fun k => Word (chars k)) l) = false
  /\ filter f (map (fun k => Word (chars k)) l) = [].
Proof.
  intros Hf. induction l as [|k l [IH1 IH2]]; [now split|].
  cbn [map existsb filter]. now rewrite Hf, IH1, IH2.
Qed.

(** Keywords without operators compile to as many literal
    alternatives. *)
Lemma compile_literal (keywords : list string) :
  Forall verbatim keywords ->
  compile keywords
  = Pattern (map (fun k => (false, chars k)) (pieces keywords)).
Proof.
  intros H. apply pieces_literal in H. unfold compile.
  rewrite (forms_of_literals _ H).
  destruct (words_have_no_form (pieces keywords) is_other) as [-> _];
    [reflexivity|].
  destruct (words_have_no_form (pieces keywords) is_unclosed) as [-> _];
    [reflexivity|].
  destruct (words_have_no_form (pieces keywords) is_captured) as [_ ->];
    [reflexivity|].
  cbn [List.length Nat.ltb Nat.leb]. now rewrite map_map.
Qed.

Lemma no_group (l : list string) :
  existsb fst (map (fun k => (false, chars k)) l) = false.
Proof. induction l as [|k l IH]; [reflexivity|exact IH]. Qed.

(** The search with keywords without operators, on a text in ASCII. *)
Lemma search_literal (keywords : list string) (s : string) :
  Forall verbatim keywords -> in_ascii s ->
  search keywords s
  = Some (map string_of_list_ascii
              (findall_from (map chars (pieces keywords)) None 0
                            (chars s))).
Proof.
  intros Hk Hs. unfold search. rewrite (compile_literal _ Hk).
  unfold findall. unfold in_ascii in Hs. rewrite Hs, no_group.
  now rewrite map_map.
Qed.

Lemma in_ascii_app (a b : string) :
  in_ascii (a ++ b) <-> in_ascii a /\ in_ascii b.
Proof.
  unfold in_ascii, ascii_only. fold (chars (a ++ b)).
  rewrite chars_app, forallb_app. apply andb_true_iff.
Qed.

(** The key sentences are the sentences that follow a period and
    contain a keyword. *)
Lemma search_selects_later_sentences (keywords : list string) (s : string) :
  Forall verbatim keywords -> in_ascii s ->
  search keywords s = Some (selection (pieces keywords) s).
Proof.
  intros Hk Hs. rewrite (search_literal _ _ Hk Hs).
  unfold selection. do 2 f_equal.
  apply findall_from_start, plain_keywords.
  eapply Forall_impl; [|apply pieces_literal, Hk].
  exact verbatim_is_plain.
Qed.

End LiteralFacts.

(** ** Keyword sentences (C3, C10) *)

(** C3 fails on the code.  On the text of the example the keyword
    ["drought"] gives exactly [" Crops failed due to drought."].  But in
    ["Drought struck. Rain fell."] the sentence ["Drought struck."] ends
    in a period and contains the keyword as a whole word, ignoring case,
    so the rule of the specification, and of the docstring of
    [_build_sentiment], selects it; the program selects nothing, because
    its pattern asks for a period before the sentence. *)
Lemma first_sentence_is_not_selected :
  Re.search ["drought"]
            "Rain fell. Crops failed due to drought. Markets rallied."
  = Some [" Crops failed due to drought."]
  /\ Re.search ["drought"] "Drought struck. Rain fell." = Some []
  /\ Sentences.selection_spec ["drought"] "Drought struck. Rain fell."
     = ["Drought struck."].
Proof. repeat split; reflexivity. Qed.

(** C10, as stated, fails: a keyword is pasted into the pattern as it
    is, and the keyword ["(drought)"] is a capture group.  What the
    extractor selects is then what the group holds, the word
    ["drought"], and no period precedes it in the text. *)
Lemma captured_keyword_is_selected_alone :
  Re.search ["(drought)"] "Rain fell. The drought came." = Some ["drought"]
  /\ ~ (exists p q,
           "Rain fell. The drought came."
           = (p ++ "." ++ "drought" ++ q)%string).
Proof.
  split; [reflexivity|]. intros (p & q & H).
  repeat (destruct p as [|? p];
          [simpl in H; discriminate H|simpl in H; injection H as _ H]).
  destruct p; discriminate H.
Qed.

(** C10, amended: for keywords without operators and a text in ASCII,
    every sentence that the extractor selects is preceded by a period in
    the text; so a text that is one sentence, whatever it contains, gives
    no selected sentence, and the first sentence of a text never changes
    what is selected. *)
Theorem selected_sentences_follow_a_period
        (keywords : list string) (text first rest : string) :
  Forall Keywords.verbatim keywords ->
  Keywords.in_ascii text ->
  Keywords.in_ascii first ->
  Keywords.in_ascii rest ->
  Sentences.no_period (Sentences.chars first) ->
  (exists l,
      Re.search keywords text = Some l
      /\ forall m, In m l ->
           exists p q, text = (p ++ "." ++ m ++ q)%string)
  /\ Re.search keywords (first ++ ".") = Some []
  /\ (exists l,
         Re.search keywords (first ++ "." ++ rest) = Some l
         /\ Re.search keywords ("." ++ rest) = Some l).
Proof.
  intros Hk Ht Hf Hr Hfirst.
  assert (Keywords.in_ascii ".") as Hdot by reflexivity.
  repeat split.
  - eexists. split; [apply (search_literal _ _ Hk Ht)|].
    intros m Hm. apply in_map_iff in Hm as (m' & <- & Hm).
    destruct (findall_preceded _ (Sentences.chars text) [] None 0%nat m'
                               eq_refl Hm) as (p & q & E).
    exists (string_of_list_ascii p), (string_of_list_ascii q).
    rewrite <- (string_of_list_ascii_of_string text).
    fold (Sentences.chars text). simpl in E. rewrite E.
    now rewrite string_of_app; simpl; rewrite string_of_app.
  - rewrite search_literal;
      [|exact Hk|apply in_ascii_app; now split].
    rewrite chars_app.
    change (Sentences.chars ".") with [Re.period].
    now rewrite (findall_first_run _ _ _ Hfirst).
  - eexists. split.
    + rewrite search_literal;
        [reflexivity|exact Hk|].
      apply in_ascii_app. split; [exact Hf|].
      apply in_ascii_app. now split.
    + rewrite search_literal;
        [|exact Hk|apply in_ascii_app; now split].
      rewrite (chars_app first).
      change (Sentences.chars ("." ++ rest))
        with (Re.period :: Sentences.chars rest).
      now rewrite (findall_first_run _ _ _ Hfirst).
Qed.

Lemma selected_sentences_follow_a_period_witness :
  (exists l,
      Re.search ["drought"] Sample.drought_text = Some l
      /\ forall m, In m l ->
           exists p q, Sample.drought_text = (p ++ "." ++ m ++ q)%string)
  /\ Re.search ["drought"] ("Drought struck" ++ ".") = Some []
  /\ (exists l,
         Re.search ["drought"] ("Drought struck" ++ "." ++ " Rain fell.")
         = Some l
         /\ Re.search ["drought"] ("." ++ " Rain fell.") = Some l).
Proof.
  apply (selected_sentences_follow_a_period
           ["drought"] Sample.drought_text "Drought struck" " Rain fell.").
  - repeat constructor.
  - reflexivity.
  - reflexivity.
  - reflexivity.
  - repeat constructor.
Defined.

(** ** One turn of the fetch loop *)

Section LoopFacts.

Import Fetch.

Variable w : service.
Variable parameters : list Py.value * Py.value * Py.value.

Variables (fuel : nat) (results_max rows page : Z) (acc : list item).
Variable st : state.

Lemma loop_first_attempt (request : response) (r : results) :
  w (sent st) (prepped_url parameters rows page) = Responded request ->
  status_code request = codes_ok ->
  json request = Some r ->
  request_loop w parameters (S fuel) results_max rows page acc st
  = page_taken w parameters fuel results_max rows page acc request r
               (sent_to (prepped_url parameters rows page)
                        (Responded request) st).
Proof.
  intros Hw Hs Hj. cbn [request_loop].
  unfold bind at 1. unfold session_send. rewrite Hw.
  rewrite Hs, Z.eqb_refl. cbn [negb].
  unfold bind, ret, request_json, record_page, page_taken.
  rewrite Hj. unfold ret.
  now destruct (_fulfilled_query r results_max).
Qed.

Lemma loop_network_error (name : string) :
  w (sent st) (prepped_url parameters rows page) = Failed name ->
  request_loop w parameters (S fuel) results_max rows page acc st
  = Raise (Py.RequestException name)
          (sent_to (prepped_url parameters rows page) (Failed name) st).
Proof.
  intros Hw. cbn [request_loop].
  unfold bind at 1. unfold session_send. now rewrite Hw.
Qed.

(** The state in which the answer to the second attempt is known. *)
Lemma loop_second_attempt (first : response) :
  w (sent st) (prepped_url parameters rows page) = Responded first ->
  status_code first <> codes_ok ->
  let url := prepped_url parameters rows page in
  let st1 := slept 60 (sent_to url (Responded first) st) in
  let o := w (S (sent st)) url in
  request_loop w parameters (S fuel) results_max rows page acc st
  = match o with
    | Responded request =>
        if raise_for_status request
        then Raise (Py.RuntimeError
                      (second_attempt_message (status_code request)))
                   (sent_to url o st1)
        else match json request with
             | Some r => page_taken w parameters fuel results_max rows
                                    page acc request r (sent_to url o st1)
             | None => Raise (Py.ValueError "json") (sent_to url o st1)
             end
    | Failed _ => Raise (Py.UnboundLocalError "request") (sent_to url o st1)
    end.
Proof.
  intros Hw Hs url st1 o. cbn [request_loop].
  unfold bind at 1. unfold session_send. rewrite Hw.
  apply Z.eqb_neq in Hs. rewrite Hs. cbn [negb].
  unfold _request_again, time_sleep, session_send.
  unfold bind, ret, raise, request_json, record_page, page_taken.
  cbn [sent slept sent_to]. fold url. fold st1. fold o.
  destruct o as [request|name]; [|reflexivity].
  destruct (raise_for_status request); [reflexivity|].
  destruct (json request) as [r|]; [|reflexivity].
  unfold ret. now destruct (_fulfilled_query r results_max).
Qed.

Lemma loop_first_attempt_no_json (request : response) :
  w (sent st) (prepped_url parameters rows page) = Responded request ->
  status_code request = codes_ok ->
  json request = None ->
  request_loop w parameters (S fuel) results_max rows page acc st
  = Raise (Py.ValueError "json")
          (sent_to (prepped_url parameters rows page)
                   (Responded request) st).
Proof.
  intros Hw Hs Hj. cbn [request_loop].
  unfold bind at 1. unfold session_send. rewrite Hw.
  rewrite Hs, Z.eqb_refl. cbn [negb].
  unfold bind, ret, request_json. now rewrite Hj.
Qed.

End LoopFacts.

(** ** What a fetch that returns has done *)

Section FetchFacts.

Import Fetch.

Variable w : service.
Variable parameters : list Py.value * Py.value * Py.value.
Variables (results_max rows : Z).

Lemma responses_app (a b : list event) :
  responses (a ++ b) = responses a ++ responses b.
Proof.
  induction a as [|[url [r|name]|secs] a IH]; simpl; now rewrite ?IH.
Qed.

Lemma retried_app (a b : list event) :
  retried (a ++ b) = retried a || retried b.
Proof. apply existsb_app. Qed.

(** A page taken after the events [pre], followed by a run that took
    pages, is a run that took pages. *)
Lemma took_pages_cons (acc : list item) (st st1 : state)
      (pre : list event) (request : response) (r : results)
      (out : list item) (st' : state)
      (earlier : list response) (final : response) :
  json request = Some r ->
  _fulfilled_query r results_max = false ->
  trace st1 = trace st ++ pre ->
  request_time st1 = request_time st ->
  (exists before, responses pre = before ++ [request]) ->
  (retried pre = false -> responses pre = [request]) ->
  took_pages results_max (acc ++ items r) (recorded request r st1)
             out st' earlier final ->
  took_pages results_max acc st out st' (request :: earlier) final.
Proof.
  intros Hj Hf Htr Ht (before & Hin) Hre
         (Hout & Hearlier & Hfinal & Htime & Hsize
          & tr & Htr' & Hincl & (before' & Hlast) & Hall).
  unfold took_pages. repeat split.
  - rewrite Hout, <- app_assoc. simpl. unfold body_items at 2.
    now rewrite Hj.
  - constructor; [now exists r|exact Hearlier].
  - exact Hfinal.
  - rewrite Htime. cbn. now rewrite Ht.
  - exact Hsize.
  - exists (pre ++ tr). repeat split.
    + rewrite Htr'. cbn. now rewrite Htr, app_assoc.
    + rewrite responses_app. intros x [<-|Hx].
      * apply in_or_app. left. rewrite Hin. apply in_or_app.
        right. now left.
      * apply in_or_app. right. now apply Hincl.
    + exists (responses pre ++ before').
      now rewrite responses_app, Hlast, app_assoc.
    + rewrite retried_app, responses_app. intros H.
      apply orb_false_iff in H as [H1 H2].
      now rewrite (Hre H1), (Hall H2).
Qed.

Lemma took_pages_last (acc : list item) (st st1 : state)
      (pre : list event) (request : response) (r : results) :
  json request = Some r ->
  _fulfilled_query r results_max = true ->
  trace st1 = trace st ++ pre ->
  request_time st1 = request_time st ->
  (exists before, responses pre = before ++ [request]) ->
  (retried pre = false -> responses pre = [request]) ->
  took_pages results_max acc st (acc ++ items r) (recorded request r st1)
             [] request.
Proof.
  intros Hj Hf Htr Ht (before & Hin) Hre. unfold took_pages.
  repeat split.
  - simpl. unfold body_items. now rewrite Hj, app_nil_r.
  - constructor.
  - now exists r.
  - cbn. now rewrite Ht.
  - unfold counts_of. now rewrite Hj.
  - exists pre. repeat split; [exact Htr| | |exact Hre].
    + intros x [<-|[]]. rewrite Hin. apply in_or_app. right. now left.
    + now exists before.
Qed.

Lemma loop_took_pages (fuel : nat) :
  forall page acc st out st',
  request_loop w parameters fuel results_max rows page acc st
  = Return out st' ->
  exists earlier final,
    took_pages results_max acc st out st' earlier final.
Proof.
  induction fuel as [|fuel IH]; intros page acc st out st' H;
    [discriminate|].
  set (url := prepped_url parameters rows page).
  assert (forall request r st1 pre,
             json request = Some r ->
             trace st1 = trace st ++ pre ->
             request_time st1 = request_time st ->
             (exists before, responses pre = before ++ [request]) ->
             (retried pre = false -> responses pre = [request]) ->
             page_taken w parameters fuel results_max rows page acc
                        request r st1 = Return out st' ->
             exists earlier final,
               took_pages results_max acc st out st' earlier final)
    as Taken.
  { intros request r st1 pre Hj Htr Ht Hin Hre Hp.
    unfold page_taken in Hp.
    destruct (_fulfilled_query r results_max) eqn:Hf.
    - injection Hp as <- <-. exists [], request.
      now apply (took_pages_last acc st st1 pre).
    - apply IH in Hp as (earlier & final & Hp).
      exists (request :: earlier), final.
      now apply (took_pages_cons acc st st1 pre request r). }
  destruct (w (sent st) url) as [first|name] eqn:Hw.
  - destruct (Z.eq_dec (status_code first) codes_ok) as [Hs|Hs].
    + destruct (json first) as [r|] eqn:Hj.
      * rewrite (loop_first_attempt _ _ _ _ _ _ _ _ first r Hw Hs Hj) in H.
        apply (Taken first r (sent_to url (Responded first) st)
                     [Send url (Responded first)] Hj);
          try reflexivity; try exact H.
        now exists [].
      * now rewrite (loop_first_attempt_no_json
                       _ _ _ _ _ _ _ _ first Hw Hs Hj) in H.
    + rewrite (loop_second_attempt _ _ _ _ _ _ _ _ first Hw Hs) in H.
      cbv zeta in H. fold url in H.
      destruct (w (S (sent st)) url) as [second|name]; [|discriminate].
      destruct (raise_for_status second); [discriminate|].
      destruct (json second) as [r|] eqn:Hj; [|discriminate].
      apply (Taken second r
                   (sent_to url (Responded second)
                            (slept 60 (sent_to url (Responded first) st)))
                   [Send url (Responded first); Sleep 60;
                    Send url (Responded second)] Hj);
        try exact H; try reflexivity.
      * unfold sent_to, slept. cbn [trace].
        now rewrite <- !app_assoc.
      * now exists [first].
      * discriminate.
  - now rewrite (loop_network_error _ _ _ _ _ _ _ _ name Hw) in H.
Qed.

End FetchFacts.

(** ** Retry (C2, C5) *)

(** C2, as stated, fails.  The first test, [status_code != 200], sends
    the retry after a 503; the second test, [raise_for_status], fails
    only for the statuses 400 to 599.  So when the retry is answered 300,
    which is no success either, nothing fails: the body of that answer is
    taken as the page and the fetch returns. *)
Lemma second_bad_status_is_accepted :
  Fetch.status_code Sample.multiple_choices = 300%Z
  /\ exists st',
      Fetch._request_data Sample.error_then_300 Sample.parameters
                          1 100 20 1 Fetch.fresh
      = Fetch.Return Sample.corpus st'
      /\ Fetch.trace st'
         = [Fetch.Send Sample.url1 (Fetch.Responded Sample.unavailable);
            Fetch.Sleep 60;
            Fetch.Send Sample.url1
                       (Fetch.Responded Sample.multiple_choices)].
Proof.
  split; [reflexivity|].
  eexists. split; [vm_compute; reflexivity|reflexivity].
Qed.

(** C2, amended: when the answer to a page request has a status other
    than 200, the fetcher sleeps 60 seconds and sends the same request
    once more, and nothing else.  When that second request is answered:
    if the status of the answer is one of 400 to 599, the fetch raises
    [RuntimeError] with that status in its message, in the state reached
    by the second attempt, so without any further request and without a
    result; with any other status the answer is taken as the page: if its
    body is a page, its items are appended and the loop goes on as after
    any page, and if its body cannot be read, reading it raises. *)
Theorem one_retry_after_a_bad_status
        (w : Fetch.service)
        (parameters : list Py.value * Py.value * Py.value)
        (fuel : nat) (results_max rows page : Z) (acc : list Fetch.item)
        (st : Fetch.state) (first second : Fetch.response) :
  let url := Fetch.prepped_url parameters rows page in
  let st2 := Fetch.sent_to url (Fetch.Responded second)
               (Fetch.slept 60
                  (Fetch.sent_to url (Fetch.Responded first) st)) in
  w (Fetch.sent st) url = Fetch.Responded first ->
  Fetch.status_code first <> 200%Z ->
  w (S (Fetch.sent st)) url = Fetch.Responded second ->
  Fetch.trace st2
  = Fetch.trace st ++ [Fetch.Send url (Fetch.Responded first);
                       Fetch.Sleep 60;
                       Fetch.Send url (Fetch.Responded second)]
  /\ Fetch.sent st2 = S (S (Fetch.sent st))
  /\ Fetch.request_loop w parameters (S fuel) results_max rows page acc st
     = if ((400 <=? Fetch.status_code second)%Z
           && (Fetch.status_code second <? 600)%Z)%bool
       then Fetch.Raise
              (Py.RuntimeError
                 ("HTTP " ++ Py.str_of_Z (Fetch.status_code second)
                  ++ " error after pause and second attempt. Try again later."))
              st2
       else match Fetch.json second with
            | Some r =>
                if ((Fetch.endIndex r =? Fetch.totalItems r)%Z
                    || (Fetch.endIndex r >=? results_max)%Z)%bool
                then Fetch.Return (acc ++ Fetch.items r)
                                  (Fetch.recorded second r st2)
                else Fetch.request_loop w parameters fuel results_max rows
                                        (page + 1) (acc ++ Fetch.items r)
                                        (Fetch.recorded second r st2)
            | None => Fetch.Raise (Py.ValueError "json") st2
            end.
Proof.
  intros url st2 Hw Hs Hw2.
  rewrite (loop_second_attempt _ _ _ _ _ _ _ _ first Hw Hs).
  cbv zeta. fold url. rewrite Hw2. fold st2.
  split; [|split; reflexivity].
  subst st2. unfold Fetch.sent_to, Fetch.slept. cbn [Fetch.trace].
  now rewrite <- !app_assoc.
Qed.

Lemma one_retry_after_a_bad_status_witness :
  let url := Sample.url1 in
  let st2 := Fetch.sent_to url (Fetch.Responded Sample.unavailable)
               (Fetch.slept 60
                  (Fetch.sent_to url (Fetch.Responded Sample.unavailable)
                                 Fetch.fresh)) in
  Fetch.trace st2
  = Fetch.trace Fetch.fresh
      ++ [Fetch.Send url (Fetch.Responded Sample.unavailable);
          Fetch.Sleep 60;
          Fetch.Send url (Fetch.Responded Sample.unavailable)]
  /\ Fetch.sent st2 = S (S (Fetch.sent Fetch.fresh))
  /\ Fetch.request_loop Sample.error_twice Sample.parameters
                        (S 4) 100 20 1 [] Fetch.fresh
     = Fetch.Raise
         (Py.RuntimeError
            "HTTP 503 error after pause and second attempt. Try again later.")
         st2.
Proof.
  apply (one_retry_after_a_bad_status
           Sample.error_twice Sample.parameters 4 100 20 1 []
           Fetch.fresh Sample.unavailable Sample.unavailable).
  - reflexivity.
  - discriminate.
  - reflexivity.
Defined.

(** After a 503 the page is asked for again and taken. *)
Example retry_answered_with_the_page :
  exists st',
    Fetch._request_data Sample.error_then_page Sample.parameters
                        5 100 20 1 Fetch.fresh
    = Fetch.Return Sample.corpus st'
    /\ Fetch.trace st'
       = [Fetch.Send Sample.url1 (Fetch.Responded Sample.unavailable);
          Fetch.Sleep 60;
          Fetch.Send Sample.url1 (Fetch.Responded Sample.answer)].
Proof. eexists. split; [vm_compute; reflexivity|reflexivity]. Qed.

(** A second answer that is no error and has no page in its body. *)
Example retry_answered_without_a_page :
  exists st',
    Fetch._request_data
      (Service.scripted
         [Fetch.Responded Sample.unavailable;
          Fetch.Responded (Fetch.mkResponse 202 1%float None)]
         Sample.refused)
      Sample.parameters 5 100 20 1 Fetch.fresh
    = Fetch.Raise (Py.ValueError "json") st'
    /\ Fetch.sent st' = 2%nat.
Proof. eexists. split; [vm_compute; reflexivity|reflexivity]. Qed.

(** C5, as stated, fails: when the connection fails on the first attempt
    the fetch ends at once with the exception of [session.send], after
    one request and no sleep, although a second request would have been
    answered; after a 503 the same second request is sent and the fetch
    returns. *)
Lemma network_error_ends_the_fetch :
  Fetch._request_data Sample.network_error_then_page Sample.parameters
                      5 100 20 1 Fetch.fresh
  = Fetch.Raise (Py.RequestException "ConnectionError")
                (Fetch.mkState 0%float Fetch.Zero 1
                   [Fetch.Send Sample.url1 (Fetch.Failed "ConnectionError")])
  /\ exists st',
      Fetch._request_data Sample.error_then_page Sample.parameters
                          5 100 20 1 Fetch.fresh
      = Fetch.Return Sample.corpus st'
      /\ Fetch.retried (Fetch.trace st') = true.
Proof.
  split; [vm_compute; reflexivity|].
  eexists. split; [vm_compute; reflexivity|reflexivity].
Qed.

(** C5, amended: when [session.send] raises on the first attempt of a page
    request, the fetch ends at once with that exception: the request was
    sent once, nothing slept, nothing was sent again and no
    [RuntimeError] is raised. *)
Theorem network_error_is_not_retried
        (w : Fetch.service)
        (parameters : list Py.value * Py.value * Py.value)
        (fuel : nat) (results_max rows page : Z) (acc : list Fetch.item)
        (st : Fetch.state) (name : string) :
  let url := Fetch.prepped_url parameters rows page in
  w (Fetch.sent st) url = Fetch.Failed name ->
  exists st',
    Fetch.request_loop w parameters (S fuel) results_max rows page acc st
    = Fetch.Raise (Py.RequestException name) st'
    /\ Fetch.trace st' = Fetch.trace st ++ [Fetch.Send url (Fetch.Failed name)]
    /\ Fetch.sent st' = S (Fetch.sent st).
Proof.
  intros url Hw. eexists. split; [|split].
  - apply loop_network_error. exact Hw.
  - reflexivity.
  - reflexivity.
Qed.

Lemma network_error_is_not_retried_witness :
  exists st',
    Fetch.request_loop Sample.network_error_then_page Sample.parameters
                       (S 4) 100 20 1 [] Fetch.fresh
    = Fetch.Raise (Py.RequestException "ConnectionError") st'
    /\ Fetch.trace st'
       = Fetch.trace Fetch.fresh
           ++ [Fetch.Send (Fetch.prepped_url Sample.parameters 20 1)
                          (Fetch.Failed "ConnectionError")]
    /\ Fetch.sent st' = S (Fetch.sent Fetch.fresh).
Proof.
  apply (network_error_is_not_retried
           Sample.network_error_then_page Sample.parameters 4 100 20 1 []
           Fetch.fresh "ConnectionError").
  reflexivity.
Defined.

(** ** Fetch statistics (C8) *)

(** C8, as stated, fails: the first request is answered 503 after one
    second, the second attempt is answered with the page after two
    seconds; the durations of the requests issued add up to three
    seconds, [request_time] is two. *)
Lemma failed_attempt_is_not_timed :
  exists out st',
    Fetch._request_data Sample.error_then_page Sample.parameters
                        5 100 20 1 Fetch.fresh
    = Fetch.Return out st'
    /\ Fetch.responses (Fetch.trace st') = [Sample.unavailable; Sample.answer]
    /\ Fetch.total_seconds 0 (Fetch.responses (Fetch.trace st')) = 3%float
    /\ Fetch.request_time st' = 2%float
    /\ Fetch.request_time st'
       <> Fetch.total_seconds 0 (Fetch.responses (Fetch.trace st')).
Proof.
  eexists. eexists. split; [vm_compute; reflexivity|].
  repeat split.
  cbn [Fetch.request_time]. intros H.
  apply (f_equal (fun x => PrimFloat.eqb x 2)) in H.
  vm_compute in H. discriminate.
Qed.

(** C8, amended: a query starts with [request_time = 0.0] and
    [request_size = 0].  When the fetch returns, it has taken its pages
    from responses it received, one response per page; [request_time] is
    the sum, in order, of the durations of these responses,
    [request_size] is the pair of counts of the last of them, which is the
    response received last; and when no request was sent a second time
    these responses are all the responses received. *)
Theorem request_time_sums_the_pages_taken
        (w : Fetch.service)
        (parameters : list Py.value * Py.value * Py.value)
        (fuel : nat) (results_max rows page : Z)
        (out : list Fetch.item) (st' : Fetch.state) :
  Fetch._request_data w parameters fuel results_max rows page Fetch.fresh
  = Fetch.Return out st' ->
  Fetch.request_time Fetch.fresh = 0%float
  /\ Fetch.request_size Fetch.fresh = Fetch.Zero
  /\ exists earlier final,
      let pages := earlier ++ [final] in
      out = flat_map Fetch.body_items pages
      /\ Fetch.request_time st' = Fetch.total_seconds 0 pages
      /\ Fetch.request_size st' = Fetch.counts_of final
      /\ incl pages (Fetch.responses (Fetch.trace st'))
      /\ (exists before,
             Fetch.responses (Fetch.trace st') = before ++ [final])
      /\ (Fetch.retried (Fetch.trace st') = false ->
          Fetch.responses (Fetch.trace st') = pages).
Proof.
  intros H. split; [reflexivity|]. split; [reflexivity|].
  apply loop_took_pages in H as (earlier & final & H).
  exists earlier, final.
  destruct H as (Hout & _ & _ & Htime & Hsize & tr & Htr & Hincl & Hlast
                 & Hall).
  cbn [Fetch.trace Fetch.fresh app] in Htr. rewrite Htr.
  repeat split; assumption.
Qed.

Lemma request_time_sums_the_pages_taken_witness :
  Fetch.request_time Fetch.fresh = 0%float
  /\ Fetch.request_size Fetch.fresh = Fetch.Zero
  /\ exists earlier final,
      let pages := earlier ++ [final] in
      Sample.corpus = flat_map Fetch.body_items pages
      /\ Fetch.request_time Sample.after_two_pages
         = Fetch.total_seconds 0 pages
      /\ Fetch.request_size Sample.after_two_pages = Fetch.counts_of final
      /\ incl pages (Fetch.responses (Fetch.trace Sample.after_two_pages))
      /\ (exists before,
             Fetch.responses (Fetch.trace Sample.after_two_pages)
             = before ++ [final])
      /\ (Fetch.retried (Fetch.trace Sample.after_two_pages) = false ->
          Fetch.responses (Fetch.trace Sample.after_two_pages) = pages).
Proof.
  apply (request_time_sums_the_pages_taken
           Sample.two_pages Sample.parameters 5 100 2 1 Sample.corpus
           Sample.after_two_pages).
  vm_compute. reflexivity.
Defined.

(** ** The fetch loop against a paginated service (C1) *)

Section Paginated.

Import Fetch Service.

Variable w : service.
Variable parameters : list Py.value * Py.value * Py.value.
Variable corpus : list item.
Variable rows : nat.
Variable results_max : Z.

Hypothesis well_formed : paginated w parameters corpus rows.
Hypothesis some_rows : (1 <= rows)%nat.

Lemma firstn_more {A} (a b : nat) (l : list A) :
  firstn a l ++ firstn b (skipn a l) = firstn (a + b) l.
Proof.
  revert l. induction a as [|a IH]; intros l; [reflexivity|].
  destruct l as [|x l]; simpl; [now destruct b|]. now rewrite IH.
Qed.

Lemma pages_through_firstn (n : nat) :
  pages_through corpus rows n = firstn (n * rows) corpus.
Proof.
  unfold pages_through. induction n as [|n IH]; [reflexivity|].
  rewrite seq_S, flat_map_app, IH. cbn [flat_map plus].
  rewrite app_nil_r. cbn [page_results items].
  replace (S n - 1)%nat with n by lia.
  rewrite firstn_more. f_equal. lia.
Qed.

Lemma pages_through_S (n : nat) :
  pages_through corpus rows n ++ items (page_results corpus rows (S n))
  = pages_through corpus rows (S n).
Proof.
  unfold pages_through at 2. rewrite seq_S, flat_map_app.
  cbn [flat_map plus]. now rewrite app_nil_r.
Qed.

(** A page that does not fulfil the query is not the last one. *)
Lemma unfulfilled_has_next (n : nat) :
  _fulfilled_query (page_results corpus rows n) results_max = false ->
  (n * rows < List.length corpus)%nat.
Proof.
  unfold _fulfilled_query. cbn [page_results endIndex totalItems].
  intros H. apply orb_false_iff in H as [H _].
  apply Z.eqb_neq in H. lia.
Qed.

Lemma paginated_loop (fuel : nat) :
  forall i st,
  (i = 0 \/ i * rows < List.length corpus)%nat ->
  (forall j, (1 <= j <= i)%nat ->
     _fulfilled_query (page_results corpus rows j) results_max = false) ->
  (List.length corpus < fuel + i * rows)%nat ->
  exists n st',
    (i < n)%nat
    /\ request_loop w parameters fuel results_max (Z.of_nat rows)
                    (Z.of_nat (S i)) (pages_through corpus rows i) st
       = Return (pages_through corpus rows n) st'
    /\ (forall j, (1 <= j < n)%nat ->
          _fulfilled_query (page_results corpus rows j) results_max
          = false)
    /\ _fulfilled_query (page_results corpus rows n) results_max = true
    /\ request_size st'
       = Counts (endIndex (page_results corpus rows n))
                (totalItems (page_results corpus rows n))
    /\ List.length (trace st') = (List.length (trace st) + (n - i))%nat
    /\ retried (trace st') = retried (trace st).
Proof.
  induction fuel as [|fuel IH]; intros i st Hi Hbefore Hfuel.
  - exfalso. destruct Hi as [->|Hi]; simpl in Hfuel; lia.
  - destruct (well_formed (sent st) (S i)) as (r & Hw & Hs & Hj).
    { destruct Hi as [->|Hi]; [now left|right].
      split; [lia|]. now replace (S i - 1)%nat with i by lia. }
    unfold page_url in Hw.
    rewrite (loop_first_attempt _ _ _ _ _ _ _ _ r _ Hw Hs Hj).
    unfold page_taken.
    destruct (_fulfilled_query (page_results corpus rows (S i))
                               results_max) eqn:Hf.
    + exists (S i). eexists. split; [lia|]. split.
      { now rewrite pages_through_S. }
      split; [intros j Hj'; apply Hbefore; lia|].
      split; [exact Hf|]. split; [reflexivity|].
      split.
      * cbn [trace recorded sent_to]. rewrite length_app.
        cbn [List.length]. lia.
      * cbn [trace recorded sent_to]. unfold retried.
        rewrite existsb_app. simpl. now rewrite orb_false_r.
    + pose proof (unfulfilled_has_next _ Hf) as Hnext.
      rewrite pages_through_S.
      replace (Z.of_nat (S i) + 1)%Z with (Z.of_nat (S (S i))) by lia.
      destruct (IH (S i)
                   (recorded r (page_results corpus rows (S i))
                             (sent_to (prepped_url parameters
                                         (Z.of_nat rows) (Z.of_nat (S i)))
                                      (Responded r) st)))
        as (n & st' & Hn & Hrun & Hall & Hlast & Hsize & Hlen & Hre).
      { now right. }
      { intros j Hj'. destruct (Nat.eq_dec j (S i)) as [->|Hne];
          [exact Hf|apply Hbefore; lia]. }
      { simpl in *. lia. }
      exists n, st'. split; [lia|]. split; [exact Hrun|].
      split; [exact Hall|]. split; [exact Hlast|].
      split; [exact Hsize|]. split.
      * rewrite Hlen. cbn [trace recorded sent_to].
        rewrite length_app. cbn [List.length]. lia.
      * rewrite Hre. cbn [trace recorded sent_to]. unfold retried.
        rewrite existsb_app. simpl. now rewrite orb_false_r.
Qed.

End Paginated.

(** C1: against a well-formed paginated service the fetch returns, after
    the [n] pages 1 to [n], where page [n] is the first page whose
    [endIndex] equals [totalItems] or is at least [results_max]: every
    page before it has an [endIndex] that differs from [totalItems] and
    is below [results_max].  All [n] pages are in the result in full, so
    the number of records returned is the [endIndex] of page [n], which
    is at least [min(totalItems, results_max)]. *)
Theorem fetch_stops_at_the_first_fulfilled_page
        (w : Fetch.service)
        (parameters : list Py.value * Py.value * Py.value)
        (corpus : list Fetch.item) (rows fuel : nat) (results_max : Z) :
  Service.paginated w parameters corpus rows ->
  (1 <= rows)%nat ->
  (List.length corpus < fuel)%nat ->
  exists n out st',
    (1 <= n)%nat
    /\ Fetch._request_data w parameters fuel results_max (Z.of_nat rows) 1
                           Fetch.fresh
       = Fetch.Return out st'
    /\ let page j := Service.page_results corpus rows j in
       (forall j, (1 <= j < n)%nat ->
          Fetch.endIndex (page j) <> Fetch.totalItems (page j)
          /\ (Fetch.endIndex (page j) < results_max)%Z)
       /\ (Fetch.endIndex (page n) = Fetch.totalItems (page n)
           \/ (results_max <= Fetch.endIndex (page n))%Z)
       /\ out = Service.pages_through corpus rows n
       /\ Z.of_nat (List.length out) = Fetch.endIndex (page n)
       /\ (Z.min (Fetch.totalItems (page n)) results_max
           <= Z.of_nat (List.length out))%Z
       /\ Fetch.request_size st'
          = Fetch.Counts (Fetch.endIndex (page n))
                         (Fetch.totalItems (page n))
       /\ List.length (Fetch.trace st') = n
       /\ Fetch.retried (Fetch.trace st') = false.
Proof.
  intros Hw Hrows Hfuel.
  destruct (paginated_loop w parameters corpus rows results_max Hw Hrows
                           fuel 0%nat Fetch.fresh)
    as (n & st' & Hn & Hrun & Hall & Hlast & Hsize & Hlen & Hre).
  { now left. }
  { intros j Hj. lia. }
  { simpl. lia. }
  exists n, (Service.pages_through corpus rows n), st'.
  split; [lia|]. split; [exact Hrun|]. cbv zeta.
  assert (Z.of_nat (List.length (Service.pages_through corpus rows n))
          = Fetch.endIndex (Service.page_results corpus rows n)) as Hcount.
  { rewrite pages_through_firstn by exact Hrows.
    now rewrite length_firstn. }
  assert (Fetch.endIndex (Service.page_results corpus rows n)
          = Fetch.totalItems (Service.page_results corpus rows n)
          \/ (results_max
              <= Fetch.endIndex (Service.page_results corpus rows n))%Z)
    as Hstop.
  { unfold Fetch._fulfilled_query in Hlast.
    apply orb_true_iff in Hlast as [H|H].
    - left. now apply Z.eqb_eq.
    - right. apply Z.geb_le in H. lia. }
  split; [|split; [exact Hstop|]].
  - intros j Hj. specialize (Hall j Hj).
    unfold Fetch._fulfilled_query in Hall.
    apply orb_false_iff in Hall as [H1 H2].
    apply Z.eqb_neq in H1. split; [exact H1|].
    destruct (Z.geb_spec
                (Fetch.endIndex (Service.page_results corpus rows j))
                results_max); [discriminate|lia].
  - repeat split; try assumption.
    + rewrite Hcount. lia.
    + rewrite Hlen. simpl. lia.
Qed.

Lemma fetch_stops_at_the_first_fulfilled_page_witness :
  exists n out st',
    (1 <= n)%nat
    /\ Fetch._request_data Sample.two_pages Sample.parameters 5 100
                           (Z.of_nat 2) 1 Fetch.fresh
       = Fetch.Return out st'
    /\ let page j := Service.page_results Sample.corpus 2 j in
       (forall j, (1 <= j < n)%nat ->
          Fetch.endIndex (page j) <> Fetch.totalItems (page j)
          /\ (Fetch.endIndex (page j) < 100)%Z)
       /\ (Fetch.endIndex (page n) = Fetch.totalItems (page n)
           \/ (100 <= Fetch.endIndex (page n))%Z)
       /\ out = Service.pages_through Sample.corpus 2 n
       /\ Z.of_nat (List.length out) = Fetch.endIndex (page n)
       /\ (Z.min (Fetch.totalItems (page n)) 100
           <= Z.of_nat (List.length out))%Z
       /\ Fetch.request_size st'
          = Fetch.Counts (Fetch.endIndex (page n))
                         (Fetch.totalItems (page n))
       /\ List.length (Fetch.trace st') = n
       /\ Fetch.retried (Fetch.trace st') = false.
Proof.
  apply (fetch_stops_at_the_first_fulfilled_page
           Sample.two_pages Sample.parameters Sample.corpus 2 5 100).
  - intros n p [->|[H1 H2]].
    + eexists. repeat split.
    + assert (p = 1 \/ p = 2)%nat as [->| ->] by (simpl in H2; lia);
        eexists; repeat split.
  - lia.
  - simpl. lia.
Defined.

(** The soft cap at work: with [results_max = 2] and two records a page,
    the first page already stops the fetch, one record short of the
    three that match. *)
Example cap_stops_after_the_first_page :
  exists st',
    Fetch._request_data Sample.two_pages Sample.parameters 5 2 2 1
                        Fetch.fresh
    = Fetch.Return (firstn 2 Sample.corpus) st'
    /\ Fetch.request_size st' = Fetch.Counts 2 3
    /\ Fetch.sent st' = 1%nat.
Proof. eexists. split; [vm_compute; reflexivity|]. split; reflexivity. Qed.

(** ** Validation (C4) *)

(** C4 fails on the code: with [year_min] a string and [year_max] an
    integer the check of the years passes, and the constructor goes on to
    send its request.  The test joins the two [isinstance] checks with
    [and], so it raises only when neither year is an integer. *)
Lemma one_integer_year_is_enough :
  ChroniclingAmerica._valid_parameters
    ([Py.VStr "drought"], Py.VStr "1900", Py.VInt 1900) = inr true
  /\ exists news st',
      ChroniclingAmerica.__init__
        Sample.one_page Sample.to_datetime Sample.sentiment 5
        (Py.KwStr "drought") (Py.VStr "1900") (Py.VInt 1900) 100
      = Fetch.Return news st'
      /\ Fetch.sent st' = 1%nat.
Proof.
  split; [reflexivity|].
  eexists. eexists. split; [vm_compute; reflexivity|reflexivity].
Qed.

(** What the check of the years does, for keywords that are strings. *)
Lemma years_are_rejected_only_together
      (keywords : list Py.value) (year_min year_max : Py.value) :
  forallb Py.isinstance_str keywords = true ->
  ChroniclingAmerica._valid_parameters (keywords, year_min, year_max)
  = if negb (Py.isinstance_int year_min) && negb (Py.isinstance_int year_max)
    then inl (Py.TypeError "Years must be of type integer.")
    else inr true.
Proof.
  intros H. unfold ChroniclingAmerica._valid_parameters. now rewrite H.
Qed.

Section FrameFacts.

Import Frame.

Lemma mem_app (c : string) (a b : list string) :
  mem c (a ++ b) = mem c a || mem c b.
Proof. apply existsb_app. Qed.

Lemma lookup_none (c : string) (it : Fetch.item) :
  lookup c it = None <-> mem c (map fst it) = false.
Proof.
  induction it as [|[k v] it IH]; simpl; [tauto|].
  destruct (String.eqb c k); simpl; [split; discriminate|exact IH].
Qed.

Lemma mem_add_keys (c : string) (keys seen : list string) :
  mem c (add_keys seen keys) = mem c seen || mem c keys.
Proof.
  revert seen. induction keys as [|k keys IH]; intros seen; simpl.
  - now rewrite orb_false_r.
  - rewrite IH. destruct (mem k seen) eqn:Hk.
    + destruct (String.eqb c k) eqn:E; simpl; [|reflexivity].
      apply String.eqb_eq in E. subst k. now rewrite Hk.
    + rewrite mem_app. simpl. rewrite orb_false_r.
      now rewrite orb_assoc.
Qed.

Lemma mem_fold_keys (c : string) (items : list Fetch.item) :
  forall seen,
  mem c (fold_left (fun seen it => add_keys seen (map fst it)) items seen)
  = mem c seen || existsb (fun it => mem c (map fst it)) items.
Proof.
  induction items as [|it items IH]; intros seen; simpl.
  - now rewrite orb_false_r.
  - now rewrite IH, mem_add_keys, orb_assoc.
Qed.

Lemma mem_all_keys (c : string) (items : list Fetch.item) :
  mem c (all_keys items) = existsb (fun it => mem c (map fst it)) items.
Proof. unfold all_keys. now rewrite mem_fold_keys. Qed.

Lemma at_label_map (f : string -> cell) (c : string) (cols : list string) :
  mem c cols = true -> at_label cols (map f cols) c = f c.
Proof.
  induction cols as [|k cols IH]; simpl; [discriminate|].
  destruct (String.eqb c k) eqn:E; simpl.
  - intros _. apply String.eqb_eq in E. now subst k.
  - exact IH.
Qed.



Lemma traverse_length {A B} (f : A -> option B) (l : list A) :
  forall l', traverse f l = Some l' -> List.length l' = List.length l.
Proof.
  induction l as [|x l IH]; intros l' H; simpl in H.
  - now injection H as <-.
  - destruct (f x); [|discriminate].
    destruct (traverse f l) as [bs|]; [|discriminate].
    injection H as <-. simpl. now rewrite (IH bs).
Qed.


Lemma selected_rows (raw : list Fetch.item) (labels : list string) :
  (forall c, In c labels -> mem c (all_keys raw) = true) ->
  map (fun row => map (at_label (columns (from_dict raw)) row) labels)
      (rows (from_dict raw))
  = map (fun it => map (cell_of it) labels) raw.
Proof.
  intros Hmem. cbn [columns rows from_dict].
  rewrite map_map. apply map_ext. intros it.
  apply map_ext_in. intros c Hc. now apply at_label_map, Hmem.
Qed.

Lemma getitem_present (raw : list Fetch.item) (labels : list string) :
  (forall c, In c labels ->
             exists it, In it raw /\ lookup c it <> None) ->
  getitem (from_dict raw) labels
  = inr (mkFrame labels (map (fun it => map (cell_of it) labels) raw)).
Proof.
  intros H.
  assert (forall c, In c labels -> mem c (all_keys raw) = true) as Hmem.
  { intros c Hc. destruct (H c Hc) as (it & Hit & Hl).
    rewrite mem_all_keys. apply existsb_exists. exists it.
    split; [exact Hit|].
    destruct (mem c (map fst it)) eqn:E; [reflexivity|].
    now apply lookup_none in E. }
  unfold getitem. rewrite (selected_rows raw labels Hmem).
  cbn [columns from_dict].
  now rewrite (proj2 (forallb_forall _ _) Hmem).
Qed.

Lemma getitem_rows (raw : list Fetch.item) (labels : list string)
      (df : frame) :
  getitem (from_dict raw) labels = inr df ->
  df = mkFrame labels (map (fun it => map (cell_of it) labels) raw).
Proof.
  unfold getitem.
  destruct (forallb (fun c => mem c (columns (from_dict raw))) labels)
    eqn:E; [|discriminate].
  intros [= <-]. f_equal. apply selected_rows.
  now apply forallb_forall.
Qed.


End FrameFacts.

(** ** The dataset (C9) *)

Section DatasetFacts.

Import Frame ChroniclingAmerica.

Variable to_datetime : list Py.value -> option (list date).

Lemma converted_length (column : list cell) :
  forall dates column',
  converted column dates = Some column' ->
  List.length column' = List.length column.
Proof.
  induction column as [|c column IH]; intros dates column' H;
    cbn [converted] in H.
  - destruct dates; [now injection H as <-|discriminate].
  - destruct (present c).
    + destruct dates as [|d dates]; [discriminate|].
      destruct (converted column dates) as [l|] eqn:E; [|discriminate].
      injection H as <-. simpl. now rewrite (IH _ _ E).
    + destruct (converted column dates) as [l|] eqn:E; [|discriminate].
      injection H as <-. simpl. now rewrite (IH _ _ E).
Qed.


Lemma converted_total (column : list cell) :
  forall dates,
  List.length dates = List.length (present_values column) ->
  exists column', converted column dates = Some column'.
Proof.
  induction column as [|c column IH]; intros dates H;
    cbn [converted present_values] in *.
  - destruct dates; [now exists []|discriminate].
  - destruct (present c).
    + destruct dates as [|d dates]; [discriminate|].
      destruct (IH dates) as (l & ->); [simpl in H; lia|].
      now eexists.
    + destruct (IH dates H) as (l & ->). now eexists.
Qed.


Lemma combine_map_left {A B C} (f : A -> B) (l : list A) (l' : list C) :
  combine (map f l) l' = map (fun p => (f (fst p), snd p)) (combine l l').
Proof.
  revert l'. induction l as [|a l IH]; intros [|c l']; simpl;
    try reflexivity.
  now rewrite IH.
Qed.


(** Once the columns are found, assembling is converting the dates. *)
Lemma assemble_present (raw : list Fetch.item) :
  (forall c, In c COLUMNS ->
             exists it, In it raw /\ lookup c it <> None) ->
  assemble to_datetime raw
  = match to_datetime (present_values (date_column raw)) with
    | Some dates =>
        match converted (date_column raw) dates with
        | Some column' => inr (mkFrame COLUMNS (dated_rows raw column'))
        | None =>
            inl (Py.ValueError
                   "Length of values does not match length of index")
        end
    | None => inl (Py.ValueError "Unknown string format")
    end.
Proof.
  intros H. unfold assemble. rewrite (getitem_present raw COLUMNS H).
  unfold to_datetime_column. cbn [columns rows].
  rewrite map_map.
  change (map (fun it => at_label COLUMNS (map (cell_of it) COLUMNS) "date")
              raw)
    with (date_column raw).
  destruct (to_datetime (present_values (date_column raw))) as [dates|];
    [|reflexivity].
  destruct (converted (date_column raw) dates) as [column'|];
    [|reflexivity].
  now rewrite combine_map_left, map_map.
Qed.


Lemma dated_rows_length (raw : list Fetch.item) (dates : list date)
      (column' : list cell) :
  converted (date_column raw) dates = Some column' ->
  List.length (dated_rows raw column') = List.length raw.
Proof.
  intros H. apply converted_length in H. unfold dated_rows.
  rewrite length_map, length_combine, H. unfold date_column.
  rewrite length_map. lia.
Qed.







End DatasetFacts.




(** ** Sentiment (C6, C7) *)

Section SentimentFacts.

Import Fetch Frame ChroniclingAmerica.

Variable sentiment : string -> float * float.




(** The enrichment, from what the compilation and the rows give. *)
Lemma build_sentiment_of (news : frame) (keywords : list string)
      (alts : list (bool * Re.text)) (rows' : list (list cell))
      (st : state) :
  Re.compile keywords = Re.Pattern alts ->
  rows news <> [] ->
  traverse (enriched sentiment alts (columns news)) (rows news)
  = Some rows' ->
  _build_sentiment sentiment news keywords st
  = Return (mkFrame (columns news
                     ++ ["key_sentences"; "polarity"; "subjectivity"])
                    rows') st.
Proof.
  intros Hc Hne Ht. unfold _build_sentiment. rewrite Hc.
  destruct (rows news) as [|row rest]; [contradiction|].
  now rewrite Ht.
Qed.

End SentimentFacts.






(** * Further properties *)

(** ** The exports of [run] *)

Section DriverFacts.

Import Driver.

Lemma range_length (a b : Z) : List.length (range a b) = Z.to_nat (b - a).
Proof. unfold range. now rewrite length_map, length_seq. Qed.

Lemma range_nth (a b : Z) (k : nat) :
  (k < Z.to_nat (b - a))%nat ->
  nth_error (range a b) k = Some (a + Z.of_nat k)%Z.
Proof.
  intros H. unfold range. rewrite nth_error_map.
  rewrite nth_error_nth' with (d := 0%nat) by now rewrite length_seq.
  rewrite seq_nth by exact H. reflexivity.
Qed.

Lemma range_In (a b x : Z) : In x (range a b) <-> (a <= x < b)%Z.
Proof.
  unfold range. rewrite in_map_iff. split.
  - intros (k & <- & Hk). apply in_seq in Hk. lia.
  - intros H. exists (Z.to_nat (x - a)). split; [lia|].
    apply in_seq. lia.
Qed.

Variable keywords : list string.
Variables year_min year_max year_incr : Z.

Hypothesis positive : (1 <= year_incr)%Z.
Hypothesis ordered : (year_min <= year_max)%Z.

Local Notation "'n'" := (num_exports year_min year_max year_incr).
Local Notation "'nth'" := (nth_export keywords year_min year_max year_incr).

Lemma quotient_bounds :
  (year_incr * ((year_max - year_min) / year_incr) <= year_max - year_min
   /\ year_max - year_min
      < year_incr * ((year_max - year_min) / year_incr) + year_incr
   /\ 0 <= (year_max - year_min) / year_incr)%Z.
Proof.
  pose proof (Z.mul_div_le (year_max - year_min) year_incr).
  pose proof (Z.mul_succ_div_gt (year_max - year_min) year_incr).
  pose proof (Z.div_pos (year_max - year_min) year_incr).
  lia.
Qed.

Lemma num_exports_positive : (1 <= n)%Z.
Proof. unfold num_exports. pose proof quotient_bounds. lia. Qed.

(** An export that is not the last one takes [year_incr] years. *)
Lemma inner_export (e : Z) :
  (1 <= e < n)%Z ->
  temp_max (nth e) = (temp_min (nth e) + year_incr - 1)%Z.
Proof.
  unfold num_exports. cbn [temp_max temp_min nth_export].
  pose proof quotient_bounds as Q. intros He. nia.
Qed.

Lemma last_export : temp_max (nth n) = year_max.
Proof.
  unfold num_exports. cbn [temp_max temp_min nth_export].
  pose proof quotient_bounds. nia.
Qed.

Lemma export_within (e : Z) :
  (1 <= e <= n)%Z ->
  (year_min <= temp_min (nth e) <= temp_max (nth e)
   /\ temp_max (nth e) < temp_min (nth e) + year_incr
   /\ temp_max (nth e) <= year_max)%Z.
Proof.
  intros H. destruct (Z.eq_dec e n) as [->|Hne].
  - rewrite last_export. unfold num_exports.
    cbn [temp_min nth_export]. pose proof quotient_bounds. nia.
  - rewrite inner_export by lia. unfold num_exports in *.
    cbn [temp_min nth_export]. pose proof quotient_bounds. nia.
Qed.

(** The export of a year. *)
Lemma export_of_year (y : Z) :
  (year_min <= y <= year_max)%Z ->
  let e := ((y - year_min) / year_incr + 1)%Z in
  (1 <= e <= n /\ temp_min (nth e) <= y <= temp_max (nth e))%Z.
Proof.
  intros Hy e.
  pose proof (Z.mul_div_le (y - year_min) year_incr).
  pose proof (Z.mul_succ_div_gt (y - year_min) year_incr).
  pose proof (Z.div_pos (y - year_min) year_incr).
  pose proof (Z.div_le_mono (y - year_min) (year_max - year_min) year_incr).
  assert (1 <= e <= n)%Z as He by (subst e; unfold num_exports; lia).
  split; [exact He|].
  destruct (Z.eq_dec e n) as [E|Hne].
  - rewrite E, last_export. rewrite <- E. subst e.
    cbn [temp_min nth_export]. nia.
  - rewrite inner_export by lia. subst e.
    cbn [temp_min nth_export]. nia.
Qed.

End DriverFacts.

Section ExportsFacts.

Import Driver.

Lemma range_snoc (a b : Z) :
  (a <= b)%Z -> range a (b + 1) = range a b ++ [b].
Proof.
  intros H. unfold range.
  replace (Z.to_nat (b + 1 - a)) with (S (Z.to_nat (b - a))) by lia.
  rewrite seq_S, map_app. cbn [map plus]. do 2 f_equal. lia.
Qed.

Lemma exports_nth (keywords : list string) (year_min year_max year_incr : Z)
      (k : nat) (e : batch) :
  nth_error (map (nth_export keywords year_min year_max year_incr)
                 (range 1 (num_exports year_min year_max year_incr + 1))) k
  = Some e ->
  (1 <= 1 + Z.of_nat k <= num_exports year_min year_max year_incr)%Z
  /\ e = nth_export keywords year_min year_max year_incr (1 + Z.of_nat k).
Proof.
  rewrite nth_error_map. intros H.
  destruct (nth_error _ k) as [x|] eqn:E; [|discriminate].
  injection H as <-.
  assert (k < List.length
                (range 1 (num_exports year_min year_max year_incr + 1)))%nat
    as Hk by (apply nth_error_Some; congruence).
  rewrite range_length in Hk. rewrite range_nth in E by exact Hk.
  injection E as <-. split; [lia|reflexivity].
Qed.

(** With no year to cover, or with a step of zero. *)
Lemma exports_edges (keywords : list string) (year_min year_max : Z) :
  exports keywords year_min year_max 0 = ZeroDivisionError
  /\ forall year_incr, (1 <= year_incr)%Z -> (year_max < year_min)%Z ->
       exports keywords year_min year_max year_incr = Exports [].
Proof.
  split; [reflexivity|]. intros year_incr Hi Hy. unfold exports.
  replace (year_incr =? 0)%Z with false by (symmetry; apply Z.eqb_neq; lia).
  unfold range, num_exports.
  assert ((year_max - year_min) / year_incr < 0)%Z
    by (apply Z.div_lt_upper_bound; lia).
  now replace (Z.to_nat _) with 0%nat by lia.
Qed.

End ExportsFacts.

(** X1: for a step of at least one year and [year_min <= year_max], the
    exports of [run] cut the span of years into consecutive ranges: the
    first starts at [year_min], the last ends at [year_max], each starts
    the year after the one before ended, none is empty and none is wider
    than the step; so a year is in the span exactly when it is in the
    range of some export. *)
Theorem exports_partition_the_years
        (keywords : list string) (year_min year_max year_incr : Z) :
  (1 <= year_incr)%Z ->
  (year_min <= year_max)%Z ->
  exists l,
    Driver.exports keywords year_min year_max year_incr = Driver.Exports l
    /\ (exists first rest,
           l = first :: rest /\ Driver.temp_min first = year_min)
    /\ (exists init final,
           l = init ++ [final] /\ Driver.temp_max final = year_max)
    /\ (forall k a b,
           nth_error l k = Some a -> nth_error l (S k) = Some b ->
           Driver.temp_min b = (Driver.temp_max a + 1)%Z)
    /\ (forall e, In e l ->
           (Driver.temp_min e <= Driver.temp_max e
            < Driver.temp_min e + year_incr)%Z)
    /\ (forall y, (year_min <= y <= year_max)%Z
                  <-> exists e, In e l
                                /\ (Driver.temp_min e <= y
                                    <= Driver.temp_max e)%Z).
Proof.
  intros Hi Hy.
  pose proof (num_exports_positive year_min year_max year_incr Hi Hy) as Hn.
  eexists. split.
  { unfold Driver.exports.
    replace (year_incr =? 0)%Z with false
      by (symmetry; apply Z.eqb_neq; lia).
    reflexivity. }
  set (f := Driver.nth_export keywords year_min year_max year_incr).
  set (N := Driver.num_exports year_min year_max year_incr) in *.
  split; [|split; [|split; [|split]]].
  - exists (f 1%Z), (map f (Driver.range 2 (N + 1))).
    split; [|subst f; cbn [Driver.temp_min Driver.nth_export]; lia].
    unfold Driver.range.
    replace (Z.to_nat (N + 1 - 1)) with (S (Z.to_nat (N + 1 - 2))) by lia.
    cbn [seq map]. rewrite <- seq_shift, !map_map. f_equal.
    apply map_ext. intros k. f_equal. lia.
  - exists (map f (Driver.range 1 N)), (f N). split.
    + rewrite range_snoc by lia. now rewrite map_app.
    + apply (last_export keywords year_min year_max year_incr Hi Hy).
  - intros k a b Ha Hb.
    apply exports_nth in Ha as [Hka ->]. apply exports_nth in Hb as [Hkb ->].
    fold N in Hka, Hkb. fold f.
    rewrite (inner_export keywords year_min year_max year_incr Hi Hy)
      by (fold N; lia).
    fold f. subst f. cbn [Driver.temp_min Driver.nth_export]. lia.
  - intros e He. apply in_map_iff in He as (x & <- & Hx).
    apply range_In in Hx.
    pose proof (export_within keywords year_min year_max year_incr Hi Hy x)
      as W. fold N in W. fold f in W. lia.
  - intros y. split.
    + intros Hyy.
      pose proof (export_of_year keywords year_min year_max year_incr
                                 Hi Hy y Hyy) as E.
      cbv zeta in E. fold N in E. fold f in E.
      exists (f ((y - year_min) / year_incr + 1)%Z). split; [|lia].
      apply in_map. apply range_In. lia.
    + intros (e & He & Hin). apply in_map_iff in He as (x & <- & Hx).
      apply range_In in Hx.
      pose proof (export_within keywords year_min year_max year_incr Hi Hy x)
        as W. fold N in W. fold f in W. lia.
Qed.

Lemma exports_partition_the_years_witness :
  exists l,
    Driver.exports ["drought"] 1900 1910 4 = Driver.Exports l
    /\ (exists first rest,
           l = first :: rest /\ Driver.temp_min first = 1900%Z)
    /\ (exists init final,
           l = init ++ [final] /\ Driver.temp_max final = 1910%Z)
    /\ (forall k a b,
           nth_error l k = Some a -> nth_error l (S k) = Some b ->
           Driver.temp_min b = (Driver.temp_max a + 1)%Z)
    /\ (forall e, In e l ->
           (Driver.temp_min e <= Driver.temp_max e
            < Driver.temp_min e + 4)%Z)
    /\ (forall y, (1900 <= y <= 1910)%Z
                  <-> exists e, In e l
                                /\ (Driver.temp_min e <= y
                                    <= Driver.temp_max e)%Z).
Proof.
  apply (exports_partition_the_years ["drought"] 1900 1910 4); lia.
Defined.

(** X2: when the span has no year ([year_max < year_min], step at least
    one) [run] exports nothing, and a step of zero makes the division that
    counts the exports raise. *)
Theorem exports_of_an_empty_span
        (keywords : list string) (year_min year_max year_incr : Z) :
  (1 <= year_incr)%Z ->
  (year_max < year_min)%Z ->
  Driver.exports keywords year_min year_max year_incr = Driver.Exports []
  /\ Driver.exports keywords year_min year_max 0 = Driver.ZeroDivisionError.
Proof.
  intros Hi Hy. destruct (exports_edges keywords year_min year_max) as [Z0 E].
  split; [now apply E|exact Z0].
Qed.

Lemma exports_of_an_empty_span_witness :
  Driver.exports ["drought"] 1910 1900 5 = Driver.Exports []
  /\ Driver.exports ["drought"] 1910 1900 0 = Driver.ZeroDivisionError.
Proof. apply (exports_of_an_empty_span ["drought"] 1910 1900 5); lia. Defined.

(** ** Keywords given as one string *)

Section SplitFacts.

Import Re Keywords.

Lemma split_from_concat (s : text) :
  forall cur in_sep,
  List.concat (split_from cur in_sep s) = rev cur ++ filter is_word s.
Proof.
  induction s as [|c s IH]; intros cur in_sep; simpl.
  - now rewrite !app_nil_r.
  - destruct (is_word c).
    + rewrite IH. simpl. now rewrite <- app_assoc.
    + destruct in_sep; [apply IH|]. simpl. now rewrite IH.
Qed.

Lemma split_from_words (s : text) :
  forall cur in_sep,
  Forall (fun c => is_word c = true) cur ->
  Forall (Forall (fun c => is_word c = true)) (split_from cur in_sep s).
Proof.
  induction s as [|c s IH]; intros cur in_sep Hcur; simpl.
  - constructor; [|constructor]. now apply Forall_rev.
  - destruct (is_word c) eqn:Hc.
    + apply IH. now constructor.
    + destruct in_sep; [now apply IH|].
      constructor; [now apply Forall_rev|]. apply IH. constructor.
  Qed.

Lemma split_from_word (s : text) :
  Forall (fun c => is_word c = true) s ->
  forall cur in_sep, split_from cur in_sep s = [rev cur ++ s].
Proof.
  induction 1 as [|c s Hc _ IH]; intros cur in_sep; simpl.
  - now rewrite app_nil_r.
  - rewrite Hc, IH. simpl. now rewrite <- app_assoc.
Qed.

(** After a separator the piece in progress is empty. *)
Lemma split_from_trailing (s : text) (c : ascii) :
  is_word c = false ->
  forall cur in_sep, (in_sep = true -> cur = []) ->
  In [] (split_from cur in_sep (s ++ [c])).
Proof.
  intros Hc. induction s as [|x s IH]; intros cur in_sep Hinv; simpl.
  - rewrite Hc. destruct in_sep.
    + rewrite (Hinv eq_refl). now left.
    + right. now left.
  - destruct (is_word x).
    + apply IH. discriminate.
    + destruct in_sep; [now apply IH|]. right. now apply IH.
Qed.

Lemma word_is_not_period (c : ascii) :
  is_word c = true -> is_period c = false.
Proof.
  intros H. destruct (is_period c) eqn:E; [|reflexivity].
  apply Ascii.eqb_eq in E. subst c. discriminate.
Qed.

Lemma words_are_plain (kw : string) :
  is_words kw -> Sentences.plain_keyword kw.
Proof.
  unfold is_words, Sentences.plain_keyword, Sentences.plain, Sentences.chars.
  apply Forall_impl. exact word_is_not_period.
Qed.

Lemma split_nonword_words (s : text) :
  Forall is_words (map string_of_list_ascii (split_from [] false s)).
Proof.
  apply Forall_map.
  eapply Forall_impl; [|apply (split_from_words _ [] false); constructor].
  intros kw H. unfold is_words.
  now rewrite list_ascii_of_string_of_list_ascii.
Qed.

Lemma split_from_some (s : text) :
  forall cur in_sep, split_from cur in_sep s <> [].
Proof.
  induction s as [|c s IH]; intros cur in_sep; simpl; [discriminate|].
  destruct (is_word c); [apply IH|].
  destruct in_sep; [apply IH|discriminate].
Qed.

(** The string is in ASCII: it is cut. *)
Lemma split_nonword_ascii (s : string) :
  in_ascii s ->
  split_nonword s
  = Some (map string_of_list_ascii
              (split_from [] false (list_ascii_of_string s))).
Proof. unfold in_ascii, split_nonword. now intros ->. Qed.

Lemma word_is_literal (c : ascii) : is_word c = true -> is_literal c = true.
Proof. destruct c as [[] [] [] [] [] [] [] []]; vm_compute; congruence. Qed.

Lemma words_are_verbatim (kw : string) : is_words kw -> verbatim kw.
Proof.
  unfold is_words, verbatim. intros H. apply forallb_forall.
  intros c Hc. apply word_is_literal.
  now apply (proj1 (Forall_forall _ _) H).
Qed.

Lemma verbatim_in_ascii (kw : string) : verbatim kw -> in_ascii kw.
Proof.
  unfold verbatim, in_ascii, ascii_only. intros H. apply forallb_forall.
  intros c Hc. apply (proj1 (forallb_forall _ _) H) in Hc.
  unfold is_literal in Hc. now apply andb_true_iff in Hc.
Qed.

(** The words of a string in ASCII are keywords without operators, and
    there is at least one of them. *)
Lemma split_nonword_literal (s : string) :
  in_ascii s ->
  exists words,
    split_nonword s = Some words
    /\ Forall is_words words
    /\ Forall verbatim words
    /\ pieces words = words.
Proof.
  intros Hs. eexists. split; [apply (split_nonword_ascii _ Hs)|].
  pose proof (split_nonword_words (list_ascii_of_string s)) as Hw.
  split; [exact Hw|]. split.
  - eapply Forall_impl; [|exact Hw]. exact words_are_verbatim.
  - pose proof (split_from_some (list_ascii_of_string s) [] false) as Hne.
    now destruct (split_from [] false (list_ascii_of_string s)).
Qed.

Lemma concat_strings (l : list text) :
  String.concat "" (map string_of_list_ascii l)
  = string_of_list_ascii (List.concat l).
Proof.
  induction l as [|a l IH]; [reflexivity|].
  cbn [map List.concat]. rewrite string_of_app, <- IH.
  destruct l as [|b l]; [|reflexivity].
  simpl. clear. induction (string_of_list_ascii a) as [|c x IHx];
    simpl; [reflexivity|now rewrite <- IHx].
Qed.

End SplitFacts.

Section EmptyKeywordFacts.

Import Re Sentences Keywords.

Variable kws : list text.

(** A word boundary needs a word character on one side. *)
Lemma word_at_needs_word (kw : text) (b : option ascii) (s : text) :
  is_some (word_at kw b s) = true ->
  word_before b = true \/ word_after s = true.
Proof.
  unfold word_at, boundary.
  destruct (word_before b); [now left|].
  destruct (word_after s); [now right|]. discriminate.
Qed.

Lemma occurs_needs_word (seg : text) :
  forall b, occurs_from kws b seg = true ->
  word_before b = true \/ existsb is_word seg = true.
Proof.
  induction seg as [|c seg IH]; intros b H; cbn [occurs_from] in H;
    apply orb_true_iff in H as [H|H]; try discriminate.
  - apply existsb_exists in H as (kw & _ & H).
    apply word_at_needs_word in H as [H|H]; [now left|discriminate].
  - apply existsb_exists in H as (kw & _ & H).
    apply word_at_needs_word in H as [H|H]; [now left|].
    right. simpl in *. now rewrite H.
  - apply IH in H as [H|H]; right; simpl in *; rewrite H;
      [reflexivity|apply orb_true_r].
Qed.

(** The empty keyword matches at every word boundary. *)
Lemma empty_keyword_occurs (seg : text) :
  In [] kws ->
  forall b, word_before b = false -> existsb is_word seg = true ->
  occurs_from kws b seg = true.
Proof.
  intros Hin. induction seg as [|c seg IH]; intros b Hb H; [discriminate|].
  cbn [occurs_from]. simpl in H. destruct (is_word c) eqn:Hc.
  - apply orb_true_iff. left. apply existsb_exists. exists []. split;
      [exact Hin|].
    unfold word_at, boundary. cbn [literal word_after]. now rewrite Hb, Hc.
  - apply orb_true_iff. right. apply IH; [exact Hc|exact H].
Qed.

Lemma empty_keyword_contains (seg : text) :
  In [] kws -> contains_keyword kws seg = existsb is_word seg.
Proof.
  intros Hin. unfold contains_keyword.
  destruct (existsb is_word seg) eqn:E.
  - now apply empty_keyword_occurs.
  - destruct (occurs_from kws None seg) eqn:O; [|reflexivity].
    apply occurs_needs_word in O as [O|O]; [discriminate|congruence].
Qed.

End EmptyKeywordFacts.

(** X3: the keywords that the constructor cuts out of a string in ASCII
    are made of word characters only, and together they are the word
    characters of the string, in order; a string that is one word is kept
    whole. *)
Theorem keywords_of_a_string_are_its_words (s w : string) :
  Keywords.in_ascii s ->
  Keywords.is_words w ->
  (exists words,
      Re.split_nonword s = Some words
      /\ Forall Keywords.is_words words
      /\ String.concat "" words = Keywords.word_chars s)
  /\ Re.split_nonword w = Some [w].
Proof.
  intros Hs Hw. split.
  - eexists. split; [apply (split_nonword_ascii _ Hs)|].
    split; [apply split_nonword_words|].
    unfold Keywords.word_chars.
    now rewrite concat_strings, split_from_concat.
  - rewrite split_nonword_ascii
      by now apply verbatim_in_ascii, words_are_verbatim.
    rewrite (split_from_word _ Hw). simpl.
    now rewrite string_of_list_ascii_of_string.
Qed.

Lemma keywords_of_a_string_are_its_words_witness :
  (exists words,
      Re.split_nonword "dust-bowl, drought" = Some words
      /\ Forall Keywords.is_words words
      /\ String.concat "" words = Keywords.word_chars "dust-bowl, drought")
  /\ Re.split_nonword "drought" = Some ["drought"].
Proof.
  apply (keywords_of_a_string_are_its_words "dust-bowl, drought" "drought").
  - reflexivity.
  - repeat constructor.
Defined.

(** X4: when the keywords are given as one string in ASCII, the key
    sentences of a text in ASCII are exactly the sentences that follow a
    period, end in a period and contain one of the words of the string as
    a whole word, in the order of the text. *)
Theorem string_keywords_select_later_sentences (s text : string) :
  Keywords.in_ascii s ->
  Keywords.in_ascii text ->
  exists words,
    Re.split_nonword s = Some words
    /\ Re.search words text = Some (Sentences.selection words text).
Proof.
  intros Hs Ht.
  destruct (split_nonword_literal s Hs) as (words & Hw & _ & Hl & Hp).
  exists words. split; [exact Hw|].
  now rewrite (search_selects_later_sentences _ _ Hl Ht), Hp.
Qed.

Lemma string_keywords_select_later_sentences_witness :
  exists words,
    Re.split_nonword "rain, fell" = Some words
    /\ Re.search words "x. rain. fell rain. fellow. Fell."
       = Some (Sentences.selection words "x. rain. fell rain. fellow. Fell.").
Proof.
  apply (string_keywords_select_later_sentences
           "rain, fell" "x. rain. fell rain. fellow. Fell.");
    reflexivity.
Defined.

(** X5: a keyword string in ASCII that ends with a separator, such as a
    trailing space, gives an empty keyword, which matches at every word
    boundary: every sentence after the first that has a word character is
    then a key sentence, whatever the other keywords are. *)
Theorem trailing_separator_selects_every_sentence
        (s text : string) (c : ascii) :
  Keywords.in_ascii s ->
  Keywords.in_ascii text ->
  Re.is_ascii c = true ->
  Re.is_word c = false ->
  exists words,
    Re.split_nonword (s ++ String c "") = Some words
    /\ In "" words
    /\ Re.search words text = Some (Keywords.wordy_selection text).
Proof.
  intros Hs Ht Ha Hc.
  assert (Keywords.in_ascii (s ++ String c "")) as Hsc.
  { apply in_ascii_app. split; [exact Hs|].
    unfold Keywords.in_ascii. simpl. now rewrite Ha. }
  assert (In [] (Re.split_from [] false
                   (list_ascii_of_string (s ++ String c "")))) as Hin.
  { fold (Sentences.chars (s ++ String c "")). rewrite chars_app.
    apply split_from_trailing; [exact Hc|discriminate]. }
  destruct (split_nonword_literal _ Hsc) as (words & Hw & _ & Hl & Hp).
  exists words. split; [exact Hw|].
  rewrite (split_nonword_ascii _ Hsc) in Hw. injection Hw as Hw.
  split.
  - rewrite <- Hw. apply in_map_iff. now exists [].
  - rewrite (search_selects_later_sentences _ _ Hl Ht), Hp. f_equal.
    unfold Keywords.wordy_selection, Sentences.selection, Sentences.selected.
    do 2 f_equal. apply filter_ext. intros seg.
    apply empty_keyword_contains.
    rewrite <- Hw, map_map.
    apply in_map_iff. exists []. split; [|exact Hin].
    unfold Sentences.chars. now rewrite list_ascii_of_string_of_list_ascii.
Qed.

Lemma trailing_separator_selects_every_sentence_witness :
  exists words,
    Re.split_nonword ("drought" ++ String " " "") = Some words
    /\ In "" words
    /\ Re.search words "Rain fell. Markets rallied. 1900."
       = Some (Keywords.wordy_selection "Rain fell. Markets rallied. 1900.").
Proof.
  apply (trailing_separator_selects_every_sentence
           "drought" "Rain fell. Markets rallied. 1900." " "%char);
    reflexivity.
Defined.

Section KeywordSetFacts.

Import Re Sentences.

Lemma existsb_same_members {A} (f : A -> bool) (l l' : list A) :
  (forall x, In x l <-> In x l') -> existsb f l = existsb f l'.
Proof.
  intros H. apply eq_true_iff_eq. rewrite !existsb_exists.
  split; intros (x & Hx & Hf); exists x; split; try assumption;
    now apply H.
Qed.

Lemma occurs_same_members (kws kws' : list text) (seg : text) :
  (forall kw, In kw kws <-> In kw kws') ->
  forall b, occurs_from kws b seg = occurs_from kws' b seg.
Proof.
  intros H. induction seg as [|c seg IH]; intros b; cbn [occurs_from];
    rewrite (existsb_same_members _ kws kws' H); [reflexivity|].
  now rewrite IH.
Qed.

End KeywordSetFacts.

(** X6: for keywords without operators and a text in ASCII, the key
    sentences depend only on which keywords there are: their order and
    their repetitions change nothing. *)
Theorem keywords_are_a_set (keywords keywords' : list string) (text : string) :
  Forall Keywords.verbatim keywords ->
  Keywords.in_ascii text ->
  (forall kw, In kw keywords <-> In kw keywords') ->
  exists l,
    Re.search keywords text = Some l /\ Re.search keywords' text = Some l.
Proof.
  intros Hp Ht Hsame.
  assert (Forall Keywords.verbatim keywords') as Hp'.
  { rewrite Forall_forall in *. intros kw Hkw. apply Hp. now apply Hsame. }
  assert (forall kw, In kw (Re.pieces keywords)
                     <-> In kw (Re.pieces keywords')) as Hpieces.
  { destruct keywords as [|k l]; destruct keywords' as [|k' l'];
      try exact Hsame; try reflexivity; exfalso.
    - apply (proj2 (Hsame k')). now left.
    - apply (proj1 (Hsame k)). now left. }
  eexists. split; [apply (search_selects_later_sentences _ _ Hp Ht)|].
  rewrite (search_selects_later_sentences _ _ Hp' Ht). f_equal.
  unfold Sentences.selection, Sentences.selected. do 2 f_equal.
  apply filter_ext. intros seg. symmetry.
  apply occurs_same_members. intros kw. rewrite !in_map_iff.
  split; intros (k & <- & Hk); exists k; split; try reflexivity;
    now apply Hpieces.
Qed.

Lemma keywords_are_a_set_witness :
  exists l,
    Re.search ["rain"; "fell"] "x. rain. fell rain. fellow. Fell." = Some l
    /\ Re.search ["fell"; "rain"; "fell"] "x. rain. fell rain. fellow. Fell."
       = Some l.
Proof.
  apply (keywords_are_a_set ["rain"; "fell"] ["fell"; "rain"; "fell"]).
  - repeat constructor.
  - reflexivity.
  - intros kw. simpl. tauto.
Defined.

(** ** Letter case *)

Section CaseFacts.

Import Re Keywords.

Lemma lower_lower (c : ascii) : lower (lower c) = lower c.
Proof. destruct c as [[] [] [] [] [] [] [] []]; reflexivity. Qed.

Lemma is_word_lower (c : ascii) : is_word (lower c) = is_word c.
Proof. destruct c as [[] [] [] [] [] [] [] []]; reflexivity. Qed.

Lemma is_period_lower (c : ascii) : is_period (lower c) = is_period c.
Proof. destruct c as [[] [] [] [] [] [] [] []]; reflexivity. Qed.

Lemma eq_nocase_lower (k c : ascii) :
  eq_nocase (lower k) (lower c) = eq_nocase k c.
Proof. unfold eq_nocase. now rewrite !lower_lower. Qed.

Lemma boundary_lower (b : option ascii) (s : text) :
  boundary (option_map lower b) (map lower s) = boundary b s.
Proof.
  unfold boundary. destruct b as [x|]; destruct s as [|c s]; simpl;
    now rewrite ?is_word_lower.
Qed.

Lemma literal_lower (kw : text) :
  forall b s,
  literal (map lower kw) (option_map lower b) (map lower s)
  = option_map (fun p => (option_map lower (fst p), map lower (snd p)))
               (literal kw b s).
Proof.
  induction kw as [|k kw IH]; intros b s; [reflexivity|].
  destruct s as [|c s]; simpl; [reflexivity|].
  rewrite eq_nocase_lower. destruct (eq_nocase k c); [|reflexivity].
  apply (IH (Some c)).
Qed.

Lemma word_at_lower (kw : text) (b : option ascii) (s : text) :
  word_at (map lower kw) (option_map lower b) (map lower s) = word_at kw b s.
Proof.
  unfold word_at. rewrite boundary_lower, literal_lower.
  destruct (literal kw b s) as [[b' s']|]; simpl; [|reflexivity].
  now rewrite boundary_lower, length_map.
Qed.

Lemma lazy_period_lower (s : text) :
  lazy_period (map lower s) = lazy_period s.
Proof.
  induction s as [|c s IH]; simpl; [reflexivity|].
  now rewrite is_period_lower, IH.
Qed.

Lemma alternatives_lower (kws : list text) (b : option ascii) (s : text) :
  alternatives (map (map lower) kws) (option_map lower b) (map lower s)
  = alternatives kws b s.
Proof.
  induction kws as [|kw kws IH]; [reflexivity|].
  cbn [map alternatives]. rewrite word_at_lower, IH.
  destruct (word_at kw b s) as [n|]; [|reflexivity].
  now rewrite skipn_map, lazy_period_lower.
Qed.

Lemma greedy_class_lower (kws : list text) (s : text) :
  forall b,
  greedy_class (map (map lower) kws) (option_map lower b) (map lower s)
  = greedy_class kws b s.
Proof.
  induction s as [|c s IH]; intros b.
  - apply (alternatives_lower kws b []).
  - pose proof (alternatives_lower kws b (c :: s)) as A.
    cbn [map greedy_class] in *. rewrite is_period_lower, A.
    change (Some (lower c)) with (option_map lower (Some c)).
    now rewrite IH.
Qed.

Lemma pattern_lower (kws : list text) (b : option ascii) (s : text) :
  keyword_sentence_pattern (map (map lower) kws) (option_map lower b)
                           (map lower s)
  = keyword_sentence_pattern kws b s.
Proof.
  unfold keyword_sentence_pattern. destruct b as [c|]; [|reflexivity].
  cbn [option_map]. rewrite is_period_lower.
  destruct (is_period c); [|reflexivity].
  apply (greedy_class_lower kws s (Some c)).
Qed.

Lemma findall_lower (kws : list text) (s : text) :
  forall b skip,
  findall_from (map (map lower) kws) (option_map lower b) skip (map lower s)
  = map (map lower) (findall_from kws b skip s).
Proof.
  induction s as [|c s IH]; intros b skip; [reflexivity|].
  pose proof (pattern_lower kws b (c :: s)) as P.
  cbn [map findall_from] in *. destruct skip as [|k]; [|apply (IH (Some c))].
  rewrite P.
  destruct (keyword_sentence_pattern kws b (c :: s)) as [[|n]|];
    try apply (IH (Some c)).
  cbn [map]. change (Some (lower c)) with (option_map lower (Some c)).
  rewrite IH. f_equal.
  change (lower c :: map lower s) with (map lower (c :: s)).
  now rewrite firstn_map.
Qed.

Lemma same_letters_lower (a b : text) :
  Forall2 same_letter a b <-> map lower a = map lower b.
Proof.
  split.
  - induction 1 as [|x y a b H _ IH]; [reflexivity|]. simpl.
    now rewrite H, IH.
  - revert b. induction a as [|x a IH]; intros [|y b] H; try discriminate;
      [constructor|].
    injection H as H1 H2. constructor; [exact H1|now apply IH].
Qed.

Lemma same_keywords_lower (l l' : list string) :
  Forall2 same_letters l l' ->
  map (map lower) (map list_ascii_of_string l)
  = map (map lower) (map list_ascii_of_string l').
Proof.
  induction 1 as [|a b l l' H _ IH]; [reflexivity|]. simpl.
  now rewrite IH, (proj1 (same_letters_lower _ _) H).
Qed.

Lemma same_letters_of_lower (l l' : list text) :
  map (map lower) l = map (map lower) l' ->
  Forall2 same_letters (map string_of_list_ascii l)
                       (map string_of_list_ascii l').
Proof.
  revert l'. induction l as [|x l IH]; intros [|y l'] H; try discriminate;
    [constructor|].
  injection H as H1 H2. cbn [map]. constructor; [|now apply IH].
  unfold same_letters.
  rewrite !list_ascii_of_string_of_list_ascii.
  now apply same_letters_lower.
Qed.

Lemma is_literal_lower (c : ascii) : is_literal (lower c) = is_literal c.
Proof. destruct c as [[] [] [] [] [] [] [] []]; reflexivity. Qed.

Lemma is_ascii_lower (c : ascii) : is_ascii (lower c) = is_ascii c.
Proof. destruct c as [[] [] [] [] [] [] [] []]; reflexivity. Qed.

(** Strings with the same letters have the same characters outside the
    letters. *)
Lemma same_letters_forallb (f : ascii -> bool) (a b : string) :
  (forall c, f (lower c) = f c) ->
  same_letters a b ->
  forallb f (list_ascii_of_string a) = forallb f (list_ascii_of_string b).
Proof.
  intros Hf. unfold same_letters.
  induction 1 as [|x y l l' H _ IH]; [reflexivity|].
  cbn [forallb]. rewrite IH. f_equal.
  now rewrite <- (Hf x), <- (Hf y), H.
Qed.

Lemma same_letters_literal (l l' : list string) :
  Forall2 same_letters l l' -> Forall verbatim l -> Forall verbatim l'.
Proof.
  induction 1 as [|a b l l' H _ IH]; intros Hl; [constructor|].
  inversion Hl as [|? ? Ha Hl']; subst. constructor; [|now apply IH].
  unfold verbatim in *.
  now rewrite <- (same_letters_forallb _ _ _ is_literal_lower H).
Qed.

Lemma same_letters_pieces (l l' : list string) :
  Forall2 same_letters l l' ->
  Forall2 same_letters (Re.pieces l) (Re.pieces l').
Proof.
  intros H. destruct H; [|now constructor].
  constructor; [constructor|constructor].
Qed.

End CaseFacts.

(** X7: for keywords without operators and text in ASCII, matching
    ignores the case of letters, in the keywords and in the text: keywords
    and a text that differ from others only in the case of their letters
    give the same key sentences, up to the case of their letters. *)
Theorem letter_case_is_ignored
        (keywords keywords' : list string) (text text' : string) :
  Forall Keywords.verbatim keywords ->
  Keywords.in_ascii text ->
  Forall2 Keywords.same_letters keywords keywords' ->
  Keywords.same_letters text text' ->
  exists l l',
    Re.search keywords text = Some l
    /\ Re.search keywords' text' = Some l'
    /\ Forall2 Keywords.same_letters l l'.
Proof.
  intros Hl Ha Hk Ht.
  pose proof (same_letters_literal _ _ Hk Hl) as Hl'.
  assert (Keywords.in_ascii text') as Ha'.
  { unfold Keywords.in_ascii, Re.ascii_only in *.
    now rewrite <- (same_letters_forallb _ _ _ is_ascii_lower Ht). }
  apply same_letters_pieces in Hk.
  eexists. eexists.
  split; [apply (search_literal _ _ Hl Ha)|].
  split; [apply (search_literal _ _ Hl' Ha')|].
  apply same_letters_of_lower.
  rewrite <- (findall_lower _ _ None 0), <- (findall_lower _ _ None 0).
  cbn [option_map]. f_equal.
  - apply (same_keywords_lower _ _ Hk).
  - apply same_letters_lower, Ht.
Qed.

Lemma letter_case_is_ignored_witness :
  exists l l',
    Re.search ["drought"] "Rain fell. Crops failed due to drought." = Some l
    /\ Re.search ["DROUGHT"] "RAIN FELL. CROPS FAILED DUE TO Drought."
       = Some l'
    /\ Forall2 Keywords.same_letters l l'.
Proof.
  apply (letter_case_is_ignored
           ["drought"] ["DROUGHT"]
           "Rain fell. Crops failed due to drought."
           "RAIN FELL. CROPS FAILED DUE TO Drought.").
  - repeat constructor.
  - reflexivity.
  - repeat constructor.
  - repeat constructor.
Defined.

(** ** The layout of the key sentences in the text *)

Section LayoutFacts.

Import Re Keywords.

Variable kws : list text.

Lemma lazy_period_end (s : text) :
  forall m, lazy_period s = Some m ->
  exists k, m = S k /\ nth_error s k = Some period.
Proof.
  induction s as [|c s IH]; intros m H; [discriminate|]. simpl in H.
  destruct (is_period c) eqn:Hc.
  - injection H as <-. exists 0%nat. split; [reflexivity|]. simpl.
    now rewrite (is_period_true _ Hc).
  - destruct (lazy_period s) as [m'|]; [|discriminate].
    injection H as <-. destruct (IH m' eq_refl) as (k & -> & Hk).
    now exists (S k).
Qed.

Lemma alternatives_end (l : list text) (b : option ascii) (s : text) :
  forall t, alternatives l b s = Some t ->
  exists k, t = S k /\ nth_error s k = Some period.
Proof.
  induction l as [|kw l IH]; intros t H; [discriminate|].
  cbn [alternatives] in H.
  destruct (word_at kw b s) as [n|]; [|now apply IH].
  destruct (lazy_period (skipn n s)) as [m|] eqn:E; [|now apply IH].
  injection H as <-. apply lazy_period_end in E as (k & -> & Hk).
  exists (n + k)%nat. split; [lia|]. now rewrite <- nth_error_skipn.
Qed.

Lemma greedy_class_end (s : text) :
  forall b t, greedy_class kws b s = Some t ->
  exists k, t = S k /\ nth_error s k = Some period.
Proof.
  induction s as [|c s IH]; intros b t H; cbn [greedy_class] in H.
  - now apply alternatives_end in H.
  - destruct (is_period c); [now apply alternatives_end in H|].
    destruct (greedy_class kws (Some c) s) as [n|] eqn:E;
      [|now apply alternatives_end in H].
    injection H as <-. apply IH in E as (k & -> & Hk). now exists (S k).
Qed.

(** A match ends with a period of the input. *)
Lemma pattern_end (b : option ascii) (s : text) (t : nat) :
  keyword_sentence_pattern kws b s = Some t ->
  exists k, t = S k /\ nth_error s k = Some period.
Proof.
  unfold keyword_sentence_pattern. destruct b as [c|]; [|discriminate].
  destruct (is_period c); [|discriminate]. apply greedy_class_end.
Qed.

Lemma firstn_ends (s : text) (k : nat) (c : ascii) :
  nth_error s k = Some c -> firstn (S k) s = firstn k s ++ [c].
Proof.
  revert k. induction s as [|x s IH]; intros [|k] H; try discriminate.
  - now injection H as ->.
  - simpl in *. now rewrite (IH k H).
Qed.

Lemma findall_end (s : text) :
  forall b skip m, In m (findall_from kws b skip s) ->
  exists body, m = body ++ [period].
Proof.
  induction s as [|c s IH]; intros b skip m H; [destruct H|].
  cbn [findall_from] in H. destruct skip as [|k]; [|now apply IH in H].
  destruct (keyword_sentence_pattern kws b (c :: s)) as [[|n]|] eqn:E;
    try now apply IH in H.
  destruct H as [<-|H]; [|now apply IH in H].
  apply pattern_end in E as (k & [= ->] & Hk).
  exists (firstn k (c :: s)). now apply firstn_ends.
Qed.

Lemma weave_cons (c : ascii) (g : text) (gaps parts : list text) :
  weave ((c :: g) :: gaps) parts = c :: weave (g :: gaps) parts.
Proof. now destruct parts. Qed.

(** The matches lie in the input one after the other. *)
Lemma findall_weave (s : text) :
  forall b skip, (skip <= List.length s)%nat ->
  exists gaps,
    List.length gaps = S (List.length (findall_from kws b skip s))
    /\ skipn skip s = weave gaps (findall_from kws b skip s).
Proof.
  induction s as [|c s IH]; intros b skip Hskip.
  - exists [[]]. simpl in Hskip.
    replace skip with 0%nat by lia. now split.
  - cbn [findall_from]. destruct skip as [|k].
    + destruct (keyword_sentence_pattern kws b (c :: s)) as [[|n]|] eqn:E.
      * destruct (IH (Some c) 0%nat) as (gaps & Hlen & Hw); [lia|].
        destruct gaps as [|g gaps]; [discriminate|].
        exists ((c :: g) :: gaps). split; [exact Hlen|].
        rewrite weave_cons. cbn [skipn] in *. now f_equal.
      * pose proof E as E'.
        apply pattern_end in E' as (k & [= ->] & Hk).
        assert (k < List.length (c :: s))%nat as Hlt
            by (apply nth_error_Some; congruence).
        destruct (IH (Some c) k) as (gaps & Hlen & Hw);
          [simpl in Hlt; lia|].
        exists ([] :: gaps). split; [simpl; now rewrite Hlen|].
        cbn [weave app skipn]. rewrite <- Hw.
        change (skipn k s) with (skipn (S k) (c :: s)).
        now rewrite firstn_skipn.
      * destruct (IH (Some c) 0%nat) as (gaps & Hlen & Hw); [lia|].
        destruct gaps as [|g gaps]; [discriminate|].
        exists ((c :: g) :: gaps). split; [exact Hlen|].
        rewrite weave_cons. cbn [skipn] in *. now f_equal.
    + apply IH. simpl in Hskip. lia.
Qed.

End LayoutFacts.

(** X8: for keywords without operators and a text in ASCII, the key
    sentences are pieces of the text that lie in it one after the other,
    in the order in which they are returned and without overlap, and each
    of them ends with a period. *)
Theorem key_sentences_lie_in_the_text_in_order
        (keywords : list string) (text : string) :
  Forall Keywords.verbatim keywords ->
  Keywords.in_ascii text ->
  exists l,
    Re.search keywords text = Some l
    /\ (exists gaps,
           List.length gaps = S (List.length l)
           /\ list_ascii_of_string text
              = Keywords.weave gaps (map list_ascii_of_string l))
    /\ (forall m, In m l -> exists body, m = (body ++ ".")%string).
Proof.
  intros Hk Ht. eexists. split; [apply (search_literal _ _ Hk Ht)|]. split.
  - destruct (findall_weave (map Sentences.chars (Re.pieces keywords))
                            (list_ascii_of_string text) None 0%nat)
      as (gaps & Hlen & Hw); [lia|].
    exists gaps. rewrite length_map. split; [exact Hlen|].
    rewrite map_map.
    rewrite (map_ext _ (fun x => x))
      by (intros x; apply list_ascii_of_string_of_list_ascii).
    now rewrite map_id.
  - intros m Hm. apply in_map_iff in Hm as (m' & <- & Hm).
    apply findall_end in Hm as (body & ->).
    exists (string_of_list_ascii body). now rewrite string_of_app.
Qed.

Lemma key_sentences_lie_in_the_text_in_order_witness :
  exists l,
    Re.search ["rain"; "fell"] "x. rain. fell rain. fellow. Fell." = Some l
    /\ (exists gaps,
           List.length gaps = S (List.length l)
           /\ list_ascii_of_string "x. rain. fell rain. fellow. Fell."
              = Keywords.weave gaps (map list_ascii_of_string l))
    /\ (forall m, In m l -> exists body, m = (body ++ ".")%string).
Proof.
  apply (key_sentences_lie_in_the_text_in_order
           ["rain"; "fell"] "x. rain. fell rain. fellow. Fell.").
  - repeat constructor.
  - reflexivity.
Defined.

(** ** The requests of a fetch *)

Section DisciplineFacts.

Import Fetch Discipline.

Variable w : service.
Variable parameters : list Py.value * Py.value * Py.value.
Variables (results_max rows : Z).

Local Notation "'url'" := (prepped_url parameters rows).

Lemma sends_app (a b : list event) : sends (a ++ b) = (sends a + sends b)%nat.
Proof. unfold sends. now rewrite filter_app, length_app. Qed.

Lemma sleeps_app (a b : list event) :
  sleeps (a ++ b) = (sleeps a + sleeps b)%nat.
Proof. unfold sleeps. now rewrite filter_app, length_app. Qed.

(** Each turn is one request, or two requests and one sleep. *)
Lemma turns_count (u : Z -> string) (p q : Z) (tr : list event) :
  turns u p tr q ->
  (p <= q)%Z
  /\ Z.of_nat (sends tr) = (q - p + Z.of_nat (sleeps tr))%Z
  /\ (Z.of_nat (sleeps tr) <= q - p)%Z
  /\ Forall (fun e => is_sleep e = true -> e = Sleep 60) tr.
Proof.
  induction 1 as [p|p q o tr _ (IH1 & IH2 & IH3 & IH4)
                  |p q first o tr _ _ (IH1 & IH2 & IH3 & IH4)].
  - repeat split; try (simpl; lia). constructor.
  - unfold sends, sleeps in *. cbn [filter is_sleep negb List.length].
    repeat split; try lia. constructor; [discriminate|exact IH4].
  - unfold sends, sleeps in *. cbn [filter is_sleep negb List.length].
    repeat split; try lia.
    repeat (constructor; [try discriminate; reflexivity|]). exact IH4.
Qed.

(** The end of a turn, after the events [pre] of this turn. *)
Lemma page_taken_turns (fuel : nat)
      (IH : forall page acc st st',
          final_state (request_loop w parameters fuel results_max rows
                                    page acc st) = Some st' ->
          exists tr q, trace st' = trace st ++ tr
                       /\ turns url page tr q
                       /\ sent st' = (sent st + sends tr)%nat)
      (page : Z) (acc : list item) (st stk st' : state)
      (pre : list event) (request : response) (r : results) :
  trace stk = trace st ++ pre ->
  sent stk = (sent st + sends pre)%nat ->
  (forall tr q, turns url (page + 1) tr q -> turns url page (pre ++ tr) q) ->
  final_state (page_taken w parameters fuel results_max rows page acc
                          request r stk) = Some st' ->
  exists tr q, trace st' = trace st ++ tr
               /\ turns url page tr q
               /\ sent st' = (sent st + sends tr)%nat.
Proof.
  intros Htr Hsent Hpre H. unfold page_taken in H.
  destruct (_fulfilled_query r results_max).
  - injection H as <-. exists pre, (page + 1)%Z. split; [exact Htr|].
    split; [|exact Hsent].
    rewrite <- (app_nil_r pre). apply Hpre. constructor.
  - apply IH in H as (tr & q & H1 & H2 & H3).
    exists (pre ++ tr), q. cbn [trace sent recorded] in *.
    split; [now rewrite H1, Htr, app_assoc|]. split; [now apply Hpre|].
    rewrite H3, Hsent, sends_app. lia.
Qed.

Lemma loop_turns (fuel : nat) :
  forall page acc st st',
  final_state (request_loop w parameters fuel results_max rows page acc st)
  = Some st' ->
  exists tr q, trace st' = trace st ++ tr
               /\ turns url page tr q
               /\ sent st' = (sent st + sends tr)%nat.
Proof.
  induction fuel as [|fuel IH]; intros page acc st st' H; [discriminate|].
  assert (forall o, turns url page [Send (url page) o] (page + 1)) as Once
      by (intros o; apply turns_once, turns_done).
  destruct (w (sent st) (url page)) as [first|name] eqn:Hw.
  - destruct (Z.eq_dec (status_code first) codes_ok) as [Hs|Hs].
    + destruct (json first) as [r|] eqn:Hj.
      * rewrite (loop_first_attempt _ _ _ _ _ _ _ _ first r Hw Hs Hj) in H.
        apply (page_taken_turns fuel IH page acc st
                 (sent_to (url page) (Responded first) st) st'
                 [Send (url page) (Responded first)] first r);
          try reflexivity; try exact H.
        -- cbn [sent sent_to]. unfold sends. simpl. lia.
        -- intros tr q Ht. now apply turns_once.
      * rewrite (loop_first_attempt_no_json
                   _ _ _ _ _ _ _ _ first Hw Hs Hj) in H.
        injection H as <-. exists [Send (url page) (Responded first)].
        exists (page + 1)%Z. repeat split; [apply Once|].
        cbn [sent sent_to]. unfold sends. simpl. lia.
    + rewrite (loop_second_attempt _ _ _ _ _ _ _ _ first Hw Hs) in H.
      cbv zeta in H.
      set (o := w (S (sent st)) (url page)) in *.
      set (stk := sent_to (url page) o
                    (slept 60 (sent_to (url page) (Responded first) st)))
        in *.
      set (pre := [Send (url page) (Responded first); Sleep 60;
                   Send (url page) o]).
      assert (trace stk = trace st ++ pre) as Htr.
      { subst stk pre. unfold sent_to, slept. cbn [trace].
        now rewrite <- !app_assoc. }
      assert (sent stk = (sent st + sends pre)%nat) as Hsent.
      { subst stk pre. cbn [sent sent_to slept]. unfold sends. simpl. lia. }
      assert (forall tr q, turns url (page + 1) tr q ->
                           turns url page (pre ++ tr) q) as Hpre.
      { intros tr q Ht. subst pre. simpl. now apply turns_twice. }
      assert (exists tr q, trace stk = trace st ++ tr
                           /\ turns url page tr q
                           /\ sent stk = (sent st + sends tr)%nat) as Stop.
      { exists pre, (page + 1)%Z. repeat split; try assumption.
        rewrite <- (app_nil_r pre). apply Hpre. constructor. }
      destruct o as [second|name].
      * destruct (raise_for_status second);
          [injection H as <-; exact Stop|].
        destruct (json second) as [r|];
          [|injection H as <-; exact Stop].
        now apply (page_taken_turns fuel IH page acc st stk st' pre
                                    second r).
      * injection H as <-. exact Stop.
  - rewrite (loop_network_error _ _ _ _ _ _ _ _ name Hw) in H.
    injection H as <-. exists [Send (url page) (Failed name)].
    exists (page + 1)%Z. repeat split; [apply Once|].
    cbn [sent sent_to]. unfold sends. simpl. lia.
Qed.

End DisciplineFacts.

(** X9: whatever the service answers and however the fetch ends, its
    requests go page by page from the first page asked: every page is
    requested once, or twice with exactly one sleep of 60 seconds between
    the two requests and only after an answer whose status is not 200;
    nothing else is sent and nothing else sleeps.  So the number of
    requests is the number of pages tried plus the number of sleeps, and
    there is at most one sleep per page. *)
Theorem requests_go_page_by_page
        (w : Fetch.service)
        (parameters : list Py.value * Py.value * Py.value)
        (fuel : nat) (results_max rows page : Z) (acc : list Fetch.item)
        (st st' : Fetch.state) :
  Discipline.final_state
    (Fetch.request_loop w parameters fuel results_max rows page acc st)
  = Some st' ->
  exists tr q,
    Fetch.trace st' = Fetch.trace st ++ tr
    /\ Discipline.turns (Fetch.prepped_url parameters rows) page tr q
    /\ Fetch.sent st' = (Fetch.sent st + Discipline.sends tr)%nat
    /\ Z.of_nat (Discipline.sends tr)
       = (q - page + Z.of_nat (Discipline.sleeps tr))%Z
    /\ (Z.of_nat (Discipline.sleeps tr) <= q - page)%Z
    /\ Forall (fun e => Fetch.is_sleep e = true -> e = Fetch.Sleep 60) tr.
Proof.
  intros H. apply loop_turns in H as (tr & q & H1 & H2 & H3).
  exists tr, q. split; [exact H1|]. split; [exact H2|]. split; [exact H3|].
  apply turns_count in H2 as (_ & C1 & C2 & C3). auto.
Qed.

Lemma requests_go_page_by_page_witness :
  exists tr q,
    Fetch.trace Sample.after_two_pages = Fetch.trace Fetch.fresh ++ tr
    /\ Discipline.turns (Fetch.prepped_url Sample.parameters 2) 1 tr q
    /\ Fetch.sent Sample.after_two_pages
       = (Fetch.sent Fetch.fresh + Discipline.sends tr)%nat
    /\ Z.of_nat (Discipline.sends tr)
       = (q - 1 + Z.of_nat (Discipline.sleeps tr))%Z
    /\ (Z.of_nat (Discipline.sleeps tr) <= q - 1)%Z
    /\ Forall (fun e => Fetch.is_sleep e = true -> e = Fetch.Sleep 60) tr.
Proof.
  apply (requests_go_page_by_page
           Sample.two_pages Sample.parameters 5 100 2 1 [] Fetch.fresh
           Sample.after_two_pages).
  vm_compute. reflexivity.
Defined.

(** X10: when the answer to a page request has a status other than 200
    and the second attempt fails in [session.send] itself, the handler of
    [_request_again] reads its local [request] before it was ever
    assigned: the fetch ends with [UnboundLocalError], not with the
    [RuntimeError] of a second bad status, after two requests and one
    sleep. *)
Theorem second_network_error_is_unbound_local
        (w : Fetch.service)
        (parameters : list Py.value * Py.value * Py.value)
        (fuel : nat) (results_max rows page : Z) (acc : list Fetch.item)
        (st : Fetch.state) (first : Fetch.response) (name : string) :
  let url := Fetch.prepped_url parameters rows page in
  w (Fetch.sent st) url = Fetch.Responded first ->
  Fetch.status_code first <> 200%Z ->
  w (S (Fetch.sent st)) url = Fetch.Failed name ->
  exists st',
    Fetch.request_loop w parameters (S fuel) results_max rows page acc st
    = Fetch.Raise (Py.UnboundLocalError "request") st'
    /\ Fetch.trace st'
       = Fetch.trace st ++ [Fetch.Send url (Fetch.Responded first);
                            Fetch.Sleep 60;
                            Fetch.Send url (Fetch.Failed name)]
    /\ Fetch.request_time st' = Fetch.request_time st
    /\ Fetch.request_size st' = Fetch.request_size st.
Proof.
  intros url Hw Hs Hw2.
  rewrite (loop_second_attempt _ _ _ _ _ _ _ _ first Hw Hs).
  cbv zeta. fold url. rewrite Hw2. eexists. split; [reflexivity|].
  unfold Fetch.sent_to, Fetch.slept. cbn.
  now rewrite <- !app_assoc.
Qed.

Lemma second_network_error_is_unbound_local_witness :
  exists st',
    Fetch.request_loop Cases.error_then_network_error Sample.parameters
                       (S 4) 100 20 1 [] Fetch.fresh
    = Fetch.Raise (Py.UnboundLocalError "request") st'
    /\ Fetch.trace st'
       = Fetch.trace Fetch.fresh
           ++ [Fetch.Send (Fetch.prepped_url Sample.parameters 20 1)
                          (Fetch.Responded Sample.unavailable);
               Fetch.Sleep 60;
               Fetch.Send (Fetch.prepped_url Sample.parameters 20 1)
                          (Fetch.Failed "ConnectionError")]
    /\ Fetch.request_time st' = Fetch.request_time Fetch.fresh
    /\ Fetch.request_size st' = Fetch.request_size Fetch.fresh.
Proof.
  apply (second_network_error_is_unbound_local
           Cases.error_then_network_error Sample.parameters 4 100 20 1 []
           Fetch.fresh Sample.unavailable "ConnectionError").
  - reflexivity.
  - discriminate.
  - reflexivity.
Defined.

Section StopFacts.

Import Fetch.

Variable w : service.
Variable parameters : list Py.value * Py.value * Py.value.
Variables (results_max rows : Z).


End StopFacts.

Section PagesFacts.

Import Fetch Discipline.

Variable w : service.
Variable parameters : list Py.value * Py.value * Py.value.
Variables (results_max rows : Z).

Lemma not_an_error_status (p : response) :
  raise_for_status p = false -> ~ (400 <= status_code p < 600)%Z.
Proof.
  unfold raise_for_status. intros H [H1 H2].
  apply Z.leb_le in H1. apply Z.ltb_lt in H2. now rewrite H1, H2 in H.
Qed.

(** A fetch that returns has taken its pages from the responses it
    received, one or two responses for each page. *)
Lemma loop_returns_pages (fuel : nat) :
  forall page acc st out st',
  request_loop w parameters fuel results_max rows page acc st
  = Return out st' ->
  exists tr earlier final,
    trace st' = trace st ++ tr
    /\ taken (responses tr) (earlier ++ [final])
    /\ out = acc ++ flat_map body_items (earlier ++ [final])
    /\ Forall (unfulfilled results_max) earlier
    /\ fulfilled results_max final
    /\ (sent st + S (List.length earlier) <= sent st'
        <= sent st + 2 * S (List.length earlier))%nat.
Proof.
  induction fuel as [|fuel IH]; intros page acc st out st' H;
    [discriminate|].
  set (url := prepped_url parameters rows page).
  assert (forall request r st1 pre,
             json request = Some r ->
             trace st1 = trace st ++ pre ->
             (forall rs ps, taken rs ps ->
                            taken (responses pre ++ rs) (request :: ps)) ->
             (sent st + 1 <= sent st1 <= sent st + 2)%nat ->
             page_taken w parameters fuel results_max rows page acc
                        request r st1 = Return out st' ->
             exists tr earlier final,
               trace st' = trace st ++ tr
               /\ taken (responses tr) (earlier ++ [final])
               /\ out = acc ++ flat_map body_items (earlier ++ [final])
               /\ Forall (unfulfilled results_max) earlier
               /\ fulfilled results_max final
               /\ (sent st + S (List.length earlier) <= sent st'
                   <= sent st + 2 * S (List.length earlier))%nat)
    as Taken.
  { intros request r st1 pre Hj Htr Hpre Hsent Hp.
    assert (body_items request = items r) as Hb
        by (unfold body_items; now rewrite Hj).
    unfold page_taken in Hp.
    destruct (_fulfilled_query r results_max) eqn:Hf.
    - injection Hp as <- <-. exists pre, [], request.
      split; [exact Htr|]. split.
      { rewrite <- (app_nil_r (responses pre)). apply Hpre. constructor. }
      split; [simpl; now rewrite Hb, app_nil_r|].
      split; [constructor|]. split; [now exists r|].
      cbn [sent recorded List.length]. lia.
    - apply IH in Hp
        as (tr & earlier & final & Ht & Hk & Hout & He & Hfin & Hc).
      exists (pre ++ tr), (request :: earlier), final.
      split; [cbn [trace recorded] in Ht; now rewrite Ht, Htr, app_assoc|].
      split; [rewrite responses_app; now apply Hpre|].
      split; [rewrite Hout, <- app_assoc; simpl; now rewrite Hb|].
      split; [constructor; [now exists r|exact He]|].
      split; [exact Hfin|].
      cbn [sent recorded List.length] in *. lia. }
  destruct (w (sent st) url) as [first|name] eqn:Hw.
  - destruct (Z.eq_dec (status_code first) codes_ok) as [Hs|Hs].
    + destruct (json first) as [r|] eqn:Hj.
      * rewrite (loop_first_attempt _ _ _ _ _ _ _ _ first r Hw Hs Hj) in H.
        apply (Taken first r (sent_to url (Responded first) st)
                     [Send url (Responded first)] Hj);
          try reflexivity; try exact H.
        -- intros rs ps Hk. simpl. now apply taken_first.
        -- cbn [sent sent_to]. lia.
      * now rewrite (loop_first_attempt_no_json
                       _ _ _ _ _ _ _ _ first Hw Hs Hj) in H.
    + rewrite (loop_second_attempt _ _ _ _ _ _ _ _ first Hw Hs) in H.
      cbv zeta in H. fold url in H.
      destruct (w (S (sent st)) url) as [second|name]; [|discriminate].
      destruct (raise_for_status second) eqn:Hr; [discriminate|].
      destruct (json second) as [r|] eqn:Hj; [|discriminate].
      apply (Taken second r
                   (sent_to url (Responded second)
                            (slept 60 (sent_to url (Responded first) st)))
                   [Send url (Responded first); Sleep 60;
                    Send url (Responded second)] Hj);
        try exact H.
      * unfold sent_to, slept. cbn [trace].
        now rewrite <- !app_assoc.
      * intros rs ps Hk. simpl.
        apply taken_second; [exact Hs|now apply not_an_error_status|exact Hk].
      * cbn [sent sent_to slept]. lia.
  - now rewrite (loop_network_error _ _ _ _ _ _ _ _ name Hw) in H.
Qed.

End PagesFacts.

(** X11: against any service, when the fetch returns it has taken its
    pages from the responses it received, in order: the response to the
    request of a page when its status is 200, and otherwise the response
    to the second request.  It returns the items of these pages, page
    after page; the last page taken satisfies the stop condition
    ([endIndex == totalItems] or [endIndex >= results_max]) and no page
    taken before it does; and for [n] pages it sent at least [n] and at
    most [2 n] requests. *)
Theorem fetch_returns_at_the_first_fulfilled_page
        (w : Fetch.service)
        (parameters : list Py.value * Py.value * Py.value)
        (fuel : nat) (results_max rows page : Z)
        (out : list Fetch.item) (st' : Fetch.state) :
  Fetch._request_data w parameters fuel results_max rows page Fetch.fresh
  = Fetch.Return out st' ->
  exists earlier final,
    Discipline.taken (Fetch.responses (Fetch.trace st')) (earlier ++ [final])
    /\ out = flat_map Fetch.body_items (earlier ++ [final])
    /\ Forall (fun p => exists r,
                  Fetch.json p = Some r
                  /\ Fetch.endIndex r <> Fetch.totalItems r
                  /\ (Fetch.endIndex r < results_max)%Z) earlier
    /\ (exists r,
           Fetch.json final = Some r
           /\ (Fetch.endIndex r = Fetch.totalItems r
               \/ (results_max <= Fetch.endIndex r)%Z))
    /\ (List.length (earlier ++ [final]) <= Fetch.sent st'
        <= 2 * List.length (earlier ++ [final]))%nat.
Proof.
  intros H.
  apply loop_returns_pages in H
    as (tr & earlier & final & Ht & Hk & Hout & He & Hfin & Hc).
  exists earlier, final. cbn [Fetch.trace Fetch.fresh app] in Ht.
  rewrite Ht. split; [exact Hk|]. split; [exact Hout|]. split; [|split].
  - eapply Forall_impl; [|exact He].
    intros p (r & Hj & Hf). exists r. split; [exact Hj|].
    unfold Fetch._fulfilled_query in Hf.
    apply orb_false_iff in Hf as [H1 H2]. apply Z.eqb_neq in H1.
    split; [exact H1|].
    destruct (Z.geb_spec (Fetch.endIndex r) results_max);
      [discriminate|lia].
  - destruct Hfin as (r & Hj & Hf). exists r. split; [exact Hj|].
    unfold Fetch._fulfilled_query in Hf.
    apply orb_true_iff in Hf as [H|H].
    + left. now apply Z.eqb_eq.
    + right. apply Z.geb_le in H. lia.
  - rewrite length_app. cbn [Fetch.sent Fetch.fresh List.length] in *. lia.
Qed.

Lemma fetch_returns_at_the_first_fulfilled_page_witness :
  exists earlier final,
    Discipline.taken (Fetch.responses (Fetch.trace Sample.after_two_pages))
                     (earlier ++ [final])
    /\ Sample.corpus = flat_map Fetch.body_items (earlier ++ [final])
    /\ Forall (fun p => exists r,
                  Fetch.json p = Some r
                  /\ Fetch.endIndex r <> Fetch.totalItems r
                  /\ (Fetch.endIndex r < 100)%Z) earlier
    /\ (exists r,
           Fetch.json final = Some r
           /\ (Fetch.endIndex r = Fetch.totalItems r
               \/ (100 <= Fetch.endIndex r)%Z))
    /\ (List.length (earlier ++ [final]) <= Fetch.sent Sample.after_two_pages
        <= 2 * List.length (earlier ++ [final]))%nat.
Proof.
  apply (fetch_returns_at_the_first_fulfilled_page
           Sample.two_pages Sample.parameters 5 100 2 1 Sample.corpus
           Sample.after_two_pages).
  vm_compute. reflexivity.
Defined.

(** ** Query strings *)

Section QueryFacts.

Lemma append_cancel (x a b : string) :
  (x ++ a = x ++ b)%string -> a = b.
Proof.
  induction x as [|c x IH]; simpl; [trivial|].
  intros [= H]. now apply IH.
Qed.

Lemma append_associative (a b c : string) :
  ((a ++ b) ++ c = a ++ (b ++ c))%string.
Proof. induction a as [|x a IH]; simpl; [reflexivity|now rewrite IH]. Qed.

Lemma to_int_has_digits (z : Z) :
  Z.to_int z <> Decimal.Pos Decimal.Nil
  /\ Z.to_int z <> Decimal.Neg Decimal.Nil.
Proof.
  destruct z as [|p|p]; simpl; split; try discriminate;
    intros [= H]; now apply DecimalPos.Unsigned.to_uint_nonnil in H.
Qed.

(** [str] of an integer can be read back. *)
Lemma str_of_Z_read_back (z : Z) :
  option_map Z.of_int (NilZero.int_of_string (Py.str_of_Z z)) = Some z.
Proof.
  unfold Py.str_of_Z. destruct (to_int_has_digits z) as [H1 H2].
  rewrite NilZero.isi by assumption. simpl.
  now rewrite DecimalZ.of_to.
Qed.

Lemma str_of_Z_injective (p q : Z) : Py.str_of_Z p = Py.str_of_Z q -> p = q.
Proof.
  intros H. pose proof (str_of_Z_read_back p) as Hp.
  rewrite H, str_of_Z_read_back in Hp. now injection Hp.
Qed.

End QueryFacts.

(** X12: the query string ends with the page number, and two requests of
    one query with the same number of rows have the same URL only when
    they are for the same page. *)
Theorem pages_have_different_urls
        (parameters : list Py.value * Py.value * Py.value) (rows p q : Z) :
  (exists stem,
      forall page,
        Fetch.prepped_url parameters rows page
        = (stem ++ "&page=" ++ Py.str_of_Z page)%string)
  /\ (Fetch.prepped_url parameters rows p
      = Fetch.prepped_url parameters rows q -> p = q).
Proof.
  destruct parameters as [[keywords year_min] year_max].
  assert (forall page,
             Fetch.prepped_url (keywords, year_min, year_max) rows page
             = ((Fetch.URL ++ "ortext=" ++ Py.join "+" (map Py.str keywords)
                 ++ "&dateFilterType=yearRange&date1=" ++ Py.str year_min
                 ++ "&date2=" ++ Py.str year_max
                 ++ "&format=json&rows=" ++ Py.str_of_Z rows)
                ++ "&page=" ++ Py.str_of_Z page)%string) as Shape.
  { intros page. unfold Fetch.prepped_url, Fetch._build_query, Fetch.URL.
    cbn [map fst snd Py.join].
    repeat first [rewrite append_associative | progress cbn [append]].
    reflexivity. }
  split.
  - eexists. exact Shape.
  - rewrite !Shape. intros H. apply append_cancel in H.
    cbn [append] in H. injection H as H. now apply str_of_Z_injective.
Qed.

Lemma pages_have_different_urls_witness :
  (exists stem,
      forall page,
        Fetch.prepped_url Sample.parameters 20 page
        = (stem ++ "&page=" ++ Py.str_of_Z page)%string)
  /\ (Fetch.prepped_url Sample.parameters 20 1
      = Fetch.prepped_url Sample.parameters 20 1 -> 1%Z = 1%Z).
Proof. apply (pages_have_different_urls Sample.parameters 20 1 1). Defined.

(** ** The soft cap *)

(** X13: against a well-formed paginated service the records returned are
    the first records of the corpus, in order; their number never exceeds
    the number of matches, and it exceeds [results_max] by less than one
    page: it is at most one page, or less than [results_max] plus the
    page size. *)
Theorem soft_cap_overshoots_by_less_than_a_page
        (w : Fetch.service)
        (parameters : list Py.value * Py.value * Py.value)
        (corpus : list Fetch.item) (rows fuel : nat) (results_max : Z) :
  Service.paginated w parameters corpus rows ->
  (1 <= rows)%nat ->
  (List.length corpus < fuel)%nat ->
  exists out st',
    Fetch._request_data w parameters fuel results_max (Z.of_nat rows) 1
                        Fetch.fresh
    = Fetch.Return out st'
    /\ out = firstn (List.length out) corpus
    /\ (List.length out <= List.length corpus)%nat
    /\ ((List.length out <= rows)%nat
        \/ (Z.of_nat (List.length out) < results_max + Z.of_nat rows)%Z).
Proof.
  intros Hw Hrows Hfuel.
  destruct (paginated_loop w parameters corpus rows results_max Hw Hrows
                           fuel 0%nat Fetch.fresh)
    as (n & st' & Hn & Hrun & Hall & _).
  { now left. }
  { intros j Hj. lia. }
  { simpl. lia. }
  exists (Service.pages_through corpus rows n), st'.
  split; [exact Hrun|].
  rewrite pages_through_firstn by exact Hrows.
  rewrite length_firstn. split; [|split].
  - destruct (Nat.le_ge_cases (n * rows) (List.length corpus)) as [H|H].
    + now rewrite Nat.min_l.
    + rewrite Nat.min_r by exact H.
      now rewrite firstn_all, firstn_all2.
  - lia.
  - destruct (Nat.eq_dec n 1) as [->|Hne]; [left; lia|]. right.
    assert (Fetch._fulfilled_query
              (Service.page_results corpus rows (n - 1)) results_max = false)
      as Hprev by (apply Hall; lia).
    unfold Fetch._fulfilled_query in Hprev.
    cbn [Service.page_results Fetch.endIndex Fetch.totalItems] in Hprev.
    apply orb_false_iff in Hprev as [H1 H2].
    apply Z.eqb_neq in H1.
    assert (Z.of_nat (Nat.min ((n - 1) * rows) (List.length corpus))
            < results_max)%Z as H3.
    { destruct (Z.geb_spec
                  (Z.of_nat (Nat.min ((n - 1) * rows) (List.length corpus)))
                  results_max); [discriminate|lia]. }
    nia.
Qed.

Lemma soft_cap_overshoots_by_less_than_a_page_witness :
  exists out st',
    Fetch._request_data Sample.two_pages Sample.parameters 5 1
                        (Z.of_nat 2) 1 Fetch.fresh
    = Fetch.Return out st'
    /\ out = firstn (List.length out) Sample.corpus
    /\ (List.length out <= List.length Sample.corpus)%nat
    /\ ((List.length out <= 2)%nat
        \/ (Z.of_nat (List.length out) < 1 + Z.of_nat 2)%Z).
Proof.
  apply (soft_cap_overshoots_by_less_than_a_page
           Sample.two_pages Sample.parameters Sample.corpus 2 5 1).
  - intros n p [->|[H1 H2]].
    + eexists. repeat split.
    + assert (p = 1 \/ p = 2)%nat as [->| ->] by (simpl in H2; lia);
        eexists; repeat split.
  - lia.
  - simpl. lia.
Defined.

(** ** When the dataset can be assembled *)

Section AssembleFacts.

Import Frame ChroniclingAmerica.

Lemma traverse_total {A B} (f : A -> option B) (l : list A) :
  (forall a, In a l -> f a <> None) -> exists l', traverse f l = Some l'.
Proof.
  induction l as [|x l IH]; intros H; [now exists []|].
  destruct IH as (l' & Hl'); [intros a Ha; apply H; now right|].
  simpl. destruct (f x) as [b|] eqn:E.
  - rewrite Hl'. now exists (b :: l').
  - exfalso. apply (H x); [now left|exact E].
Qed.

End AssembleFacts.



(** ** The constructor *)

Section ConstructorFacts.

Import Fetch ChroniclingAmerica.

Lemma strings_are_strings (l : list string) :
  forallb Py.isinstance_str (map Py.VStr l) = true.
Proof. induction l as [|x l IH]; [reflexivity|exact IH]. Qed.

Lemma not_all_strings (l : list Py.value) (v : Py.value) :
  In v l -> Py.isinstance_str v = false ->
  forallb Py.isinstance_str l = false.
Proof.
  intros Hin Hv. destruct (forallb Py.isinstance_str l) eqn:E;
    [|reflexivity].
  rewrite forallb_forall in E. rewrite (E v Hin) in Hv. discriminate.
Qed.

Lemma assemble_nothing
      (to_datetime : list Py.value -> option (list Frame.date)) :
  assemble to_datetime [] = inl (Py.KeyError "not in index").
Proof. reflexivity. Qed.

Variable w : service.
Variable to_datetime : list Py.value -> option (list Frame.date).
Variable sentiment : string -> float * float.

(** The analysis, from what the fetch and the assembly give. *)
Lemma analysis_of
      (parameters : list Py.value * Py.value * Py.value)
      (fuel : nat) (results_max : Z) (keywords : list Py.value)
      (st : state) (raw : list item) (st' : state) :
  _request_data w parameters fuel results_max 20 1 st = Return raw st' ->
  _request_and_analyze w to_datetime sentiment parameters fuel results_max
                       keywords st
  = match assemble to_datetime raw with
    | inl e => Raise e st'
    | inr dataset =>
        _build_sentiment sentiment dataset (map Py.str keywords) st'
    end.
Proof.
  intros H. unfold _request_and_analyze, _build_dataset, bind, ret.
  rewrite H. now destruct (assemble to_datetime raw).
Qed.


End ConstructorFacts.

(** X15: the constructor checks its parameters before it sends anything.
    A list of keywords with an element that is not a string is refused
    with the [TypeError] of the keywords; two years that are both no
    integers are refused with the [TypeError] of the years; in both cases
    no request was sent.  Keywords given as one string are never refused:
    with an integer year the constructor goes on to the analysis with the
    words of the string (for a string outside ASCII the words, and so the
    analysis, are not modelled); and neither are the parameters that
    [run] passes: strings from the command line and integer years. *)
Theorem constructor_checks_before_it_sends
        (w : Fetch.service)
        (to_datetime : list Py.value -> option (list Frame.date))
        (sentiment : string -> float * float)
        (fuel : nat) (results_max : Z) (year_min year_max : Py.value) :
  (forall l v,
      In v l -> Py.isinstance_str v = false ->
      ChroniclingAmerica.__init__ w to_datetime sentiment fuel
                                  (Py.KwList l) year_min year_max results_max
      = Fetch.Raise (Py.TypeError "Keywords must be of type string.")
                    Fetch.fresh)
  /\ (forall s,
         Py.isinstance_int year_min = false ->
         Py.isinstance_int year_max = false ->
         ChroniclingAmerica.__init__ w to_datetime sentiment fuel
                                     (Py.KwStr s) year_min year_max
                                     results_max
         = Fetch.Raise (Py.TypeError "Years must be of type integer.")
                       Fetch.fresh)
  /\ (forall s,
         Py.isinstance_int year_min = true
         \/ Py.isinstance_int year_max = true ->
         ChroniclingAmerica.__init__ w to_datetime sentiment fuel
                                     (Py.KwStr s) year_min year_max
                                     results_max
         = match Re.split_nonword s with
           | Some words =>
               ChroniclingAmerica._request_and_analyze
                 w to_datetime sentiment
                 (map Py.VStr words, year_min, year_max)
                 fuel results_max (map Py.VStr words)
                 Fetch.fresh
           | None => Fetch.Unmodelled
           end)
  /\ Fetch.trace Fetch.fresh = []
  /\ (forall keywords e,
         ChroniclingAmerica._valid_parameters
           (Driver.parameters_of keywords e) = inr true).
Proof.
  split; [|split; [|split; [|split]]].
  - intros l v Hin Hv. unfold ChroniclingAmerica.__init__,
      ChroniclingAmerica.construct, ChroniclingAmerica._valid_parameters.
    now rewrite (not_all_strings l v Hin Hv).
  - intros s H1 H2. unfold ChroniclingAmerica.__init__,
      ChroniclingAmerica.construct, ChroniclingAmerica._valid_parameters.
    destruct (Re.split_nonword s) as [words|].
    + now rewrite strings_are_strings, H1, H2.
    + cbn [forallb negb]. now rewrite H1, H2.
  - intros s H. unfold ChroniclingAmerica.__init__,
      ChroniclingAmerica.construct, ChroniclingAmerica._valid_parameters.
    destruct (Re.split_nonword s) as [words|].
    + rewrite strings_are_strings. cbn [negb].
      now destruct H as [-> | ->]; cbn [negb andb];
        rewrite ?andb_false_r.
    + cbn [forallb negb].
      now destruct H as [-> | ->]; cbn [negb andb];
        rewrite ?andb_false_r.
  - reflexivity.
  - intros keywords e. unfold ChroniclingAmerica._valid_parameters,
      Driver.parameters_of.
    now rewrite strings_are_strings.
Qed.

Lemma constructor_checks_before_it_sends_witness :
  (forall l v,
      In v l -> Py.isinstance_str v = false ->
      ChroniclingAmerica.__init__ Sample.one_page Sample.to_datetime
                                  Sample.sentiment 5
                                  (Py.KwList l) (Py.VStr "1900") Py.VNone 100
      = Fetch.Raise (Py.TypeError "Keywords must be of type string.")
                    Fetch.fresh)
  /\ (forall s,
         Py.isinstance_int (Py.VStr "1900") = false ->
         Py.isinstance_int Py.VNone = false ->
         ChroniclingAmerica.__init__ Sample.one_page Sample.to_datetime
                                     Sample.sentiment 5
                                     (Py.KwStr s) (Py.VStr "1900") Py.VNone
                                     100
         = Fetch.Raise (Py.TypeError "Years must be of type integer.")
                       Fetch.fresh)
  /\ (forall s,
         Py.isinstance_int (Py.VStr "1900") = true
         \/ Py.isinstance_int Py.VNone = true ->
         ChroniclingAmerica.__init__ Sample.one_page Sample.to_datetime
                                     Sample.sentiment 5
                                     (Py.KwStr s) (Py.VStr "1900") Py.VNone
                                     100
         = match Re.split_nonword s with
           | Some words =>
               ChroniclingAmerica._request_and_analyze
                 Sample.one_page Sample.to_datetime Sample.sentiment
                 (map Py.VStr words, Py.VStr "1900", Py.VNone)
                 5 100 (map Py.VStr words)
                 Fetch.fresh
           | None => Fetch.Unmodelled
           end)
  /\ Fetch.trace Fetch.fresh = []
  /\ (forall keywords e,
         ChroniclingAmerica._valid_parameters
           (Driver.parameters_of keywords e) = inr true).
Proof.
  apply (constructor_checks_before_it_sends
           Sample.one_page Sample.to_datetime Sample.sentiment 5 100
           (Py.VStr "1900") Py.VNone).
Defined.

Section ObjectFacts.

Import Fetch ChroniclingAmerica.

Variable w : service.
Variable to_datetime : list Py.value -> option (list Frame.date).
Variable sentiment : string -> float * float.




End ObjectFacts.



(** X17: a query that matches nothing does not give an empty dataset.
    The service answers page 1 with no item and [endIndex = totalItems =
    0]; the fetch stops there, and selecting the columns of a frame that
    has none raises [KeyError]: the constructor fails after one
    request. *)
Theorem query_without_hits_raises
        (w : Fetch.service)
        (to_datetime : list Py.value -> option (list Frame.date))
        (sentiment : string -> float * float)
        (fuel : nat) (kws : list Py.value) (year_min year_max : Py.value)
        (results_max : Z) :
  Service.paginated w (kws, year_min, year_max) [] 20 ->
  ChroniclingAmerica._valid_parameters (kws, year_min, year_max) = inr true ->
  exists st',
    ChroniclingAmerica.__init__ w to_datetime sentiment (S fuel)
                                (Py.KwList kws) year_min year_max results_max
    = Fetch.Raise (Py.KeyError "not in index") st'
    /\ Fetch.sent st' = 1%nat
    /\ Fetch.request_size st' = Fetch.Counts 0 0.
Proof.
  intros Hw Hv. destruct (Hw 0%nat 1%nat) as (r & Hr & Hs & Hj);
    [now left|].
  change (w (Fetch.sent Fetch.fresh)
            (Fetch.prepped_url (kws, year_min, year_max) 20 1)
          = Fetch.Responded r) in Hr.
  assert (Fetch._request_data w (kws, year_min, year_max) (S fuel)
                              results_max 20 1 Fetch.fresh
          = Fetch.Return
              []
              (Fetch.recorded
                 r (Service.page_results [] 20 1)
                 (Fetch.sent_to
                    (Fetch.prepped_url (kws, year_min, year_max) 20 1)
                    (Fetch.Responded r) Fetch.fresh))) as Hrun.
  { unfold Fetch._request_data.
    now rewrite (loop_first_attempt _ _ _ _ _ _ _ _ r _ Hr Hs Hj). }
  unfold ChroniclingAmerica.__init__, ChroniclingAmerica.construct.
  rewrite Hv.
  rewrite (analysis_of _ to_datetime sentiment _ _ _ kws _ _ _ Hrun).
  rewrite assemble_nothing. eexists. split; [reflexivity|].
  split; reflexivity.
Qed.

Lemma query_without_hits_raises_witness :
  exists st',
    ChroniclingAmerica.__init__ Cases.no_hits Sample.to_datetime
                                Sample.sentiment (S 4)
                                (Py.KwList [Py.VStr "drought"])
                                (Py.VInt 1900) (Py.VInt 1900) 100
    = Fetch.Raise (Py.KeyError "not in index") st'
    /\ Fetch.sent st' = 1%nat
    /\ Fetch.request_size st' = Fetch.Counts 0 0.
Proof.
  apply (query_without_hits_raises
           Cases.no_hits Sample.to_datetime Sample.sentiment 4
           [Py.VStr "drought"] (Py.VInt 1900) (Py.VInt 1900) 100).
  - intros n p [->|[H1 H2]]; [|simpl in H2; lia].
    eexists. repeat split.
  - reflexivity.
Defined.

Section WholeQueryFacts.

Import Frame ChroniclingAmerica.

Lemma firstn_incl {A} (n : nat) (l : list A) (x : A) :
  In x (firstn n l) -> In x l.
Proof.
  intros H. rewrite <- (firstn_skipn n l). apply in_or_app. now left.
Qed.

Lemma str_strings (keywords : list string) :
  map Py.str (map Py.VStr keywords) = keywords.
Proof.
  induction keywords as [|k l IH]; [reflexivity|]. simpl. now rewrite IH.
Qed.

(** The rows of a dataset whose texts are in ASCII are all enriched. *)
Lemma enriched_rows (sentiment : string -> float * float)
      (alts : list (bool * Re.text)) (raw : list Fetch.item)
      (column' : list cell) :
  (forall it, In it raw -> Keywords.in_ascii (Frame.str (cell_of it "ocr_eng"))) ->
  exists rows',
    traverse (enriched sentiment alts COLUMNS) (dated_rows raw column')
    = Some rows'.
Proof.
  intros Hascii. apply traverse_total. intros row Hrow.
  unfold dated_rows in Hrow. apply in_map_iff in Hrow as ([it y] & <- & Hin).
  apply in_combine_l in Hin. specialize (Hascii it Hin).
  unfold enriched. cbn [fst snd].
  change (at_label COLUMNS (y :: map (cell_of it) (tl COLUMNS)) "ocr_eng")
    with (cell_of it "ocr_eng").
  unfold Re.findall. unfold Keywords.in_ascii in Hascii. rewrite Hascii.
  now destruct (sentiment _).
Qed.

End WholeQueryFacts.

(** X18: a whole query.  Against a well-formed paginated service that
    serves twenty records a page, with accepted parameters whose keywords
    are strings without operators, a corpus that is not empty, whose
    records have every required column and a text in ASCII, and whose
    dates [pd.to_datetime] converts for any number of its first records,
    the constructor returns; no request is sent twice; the length of the
    object is the first count of [request_size], the number of records
    collected, which lies between [min(totalItems, results_max)] and
    [totalItems]. *)
Theorem query_of_complete_records_succeeds
        (w : Fetch.service)
        (to_datetime : list Py.value -> option (list Frame.date))
        (sentiment : string -> float * float)
        (fuel : nat) (keywords : list string) (year_min year_max : Py.value)
        (results_max : Z) (corpus : list Fetch.item) :
  Service.paginated w (map Py.VStr keywords, year_min, year_max) corpus 20 ->
  ChroniclingAmerica._valid_parameters
    (map Py.VStr keywords, year_min, year_max) = inr true ->
  Forall Keywords.verbatim keywords ->
  corpus <> [] ->
  (forall it, In it corpus ->
     (forall c, In c ChroniclingAmerica.COLUMNS -> Frame.lookup c it <> None)
     /\ Keywords.in_ascii (Frame.str (Frame.cell_of it "ocr_eng"))) ->
  (forall n,
     exists dates,
       to_datetime
         (Frame.present_values
            (ChroniclingAmerica.date_column (firstn n corpus)))
       = Some dates
       /\ List.length dates
          = List.length
              (Frame.present_values
                 (ChroniclingAmerica.date_column (firstn n corpus)))) ->
  (List.length corpus < fuel)%nat ->
  exists news st' e,
    ChroniclingAmerica.__init__ w to_datetime sentiment fuel
                                (Py.KwList (map Py.VStr keywords))
                                year_min year_max results_max
    = Fetch.Return news st'
    /\ Fetch.request_size st'
       = Fetch.Counts e (Z.of_nat (List.length corpus))
    /\ Methods.__len__ news = e
    /\ (Z.min (Z.of_nat (List.length corpus)) results_max <= e
        <= Z.of_nat (List.length corpus))%Z
    /\ Fetch.retried (Fetch.trace st') = false.
Proof.
  intros Hw Hv Hk Hne Hrec Hdates Hfuel.
  destruct (paginated_loop w (map Py.VStr keywords, year_min, year_max)
                           corpus 20 results_max
                           Hw ltac:(lia) fuel 0%nat Fetch.fresh)
    as (n & st' & Hn & Hrun & _ & Hlast & Hsize & _ & Hre).
  { now left. }
  { intros j Hj. lia. }
  { simpl. lia. }
  change (Fetch._request_data w (map Py.VStr keywords, year_min, year_max)
                              fuel results_max 20 1 Fetch.fresh
          = Fetch.Return (Service.pages_through corpus 20 n) st') in Hrun.
  set (raw := Service.pages_through corpus 20 n) in *.
  assert (raw = firstn (n * 20) corpus) as Hraw
      by (subst raw; apply pages_through_firstn; lia).
  assert (forall c, In c ChroniclingAmerica.COLUMNS ->
                    exists it, In it raw /\ Frame.lookup c it <> None)
    as Hcols.
  { intros c Hc. destruct corpus as [|it rest]; [contradiction|].
    exists it. split.
    - rewrite Hraw. destruct n as [|n]; [lia|]. now left.
    - apply (proj1 (Hrec it (or_introl eq_refl))), Hc. }
  destruct (Hdates (n * 20)%nat) as (dates & Hd & Hlen).
  rewrite <- Hraw in Hd, Hlen.
  destruct (converted_total _ _ Hlen) as (column' & Hc).
  destruct (enriched_rows
              sentiment (map (fun k => (false, Sentences.chars k))
                             (Re.pieces keywords)) raw column')
    as (rows' & T).
  { intros it Hit. rewrite Hraw in Hit. apply firstn_incl in Hit.
    apply (proj2 (Hrec it Hit)). }
  assert (List.length rows' = List.length raw) as Hrows.
  { rewrite (traverse_length _ _ _ T). apply (dated_rows_length _ _ _ Hc). }
  exists (Frame.mkFrame
            (ChroniclingAmerica.COLUMNS
             ++ ["key_sentences"; "polarity"; "subjectivity"]) rows').
  exists st', (Fetch.endIndex (Service.page_results corpus 20 n)).
  split; [|split; [|split; [|split]]].
  - unfold ChroniclingAmerica.__init__, ChroniclingAmerica.construct.
    rewrite Hv.
    rewrite (analysis_of _ to_datetime sentiment _ _ _ _ _ _ _ Hrun).
    rewrite (assemble_present _ _ Hcols), Hd, Hc, str_strings.
    apply (build_sentiment_of
             sentiment
             (Frame.mkFrame ChroniclingAmerica.COLUMNS
                            (ChroniclingAmerica.dated_rows raw column'))
             keywords _ rows' st' (compile_literal _ Hk)).
    + cbn [Frame.rows]. intros E.
      apply (f_equal (@List.length _)) in E.
      rewrite (dated_rows_length _ _ _ Hc), Hraw, length_firstn in E.
      destruct corpus; [contradiction|]. simpl in E. lia.
    + exact T.
  - exact Hsize.
  - unfold Methods.__len__. cbn [Frame.rows].
    rewrite Hrows, Hraw, length_firstn. reflexivity.
  - unfold Fetch._fulfilled_query in Hlast.
    cbn [Service.page_results Fetch.endIndex Fetch.totalItems] in *.
    apply orb_true_iff in Hlast as [H|H].
    + apply Z.eqb_eq in H. lia.
    + apply Z.geb_le in H. lia.
  - exact Hre.
Qed.

Lemma query_of_complete_records_succeeds_witness :
  exists news st' e,
    ChroniclingAmerica.__init__ Sample.one_page Sample.to_datetime
                                Sample.sentiment 5
                                (Py.KwList (map Py.VStr ["drought"]))
                                (Py.VInt 1900) (Py.VInt 1900) 100
    = Fetch.Return news st'
    /\ Fetch.request_size st'
       = Fetch.Counts e (Z.of_nat (List.length Sample.corpus))
    /\ Methods.__len__ news = e
    /\ (Z.min (Z.of_nat (List.length Sample.corpus)) 100 <= e
        <= Z.of_nat (List.length Sample.corpus))%Z
    /\ Fetch.retried (Fetch.trace st') = false.
Proof.
  apply (query_of_complete_records_succeeds
           Sample.one_page Sample.to_datetime Sample.sentiment 5
           ["drought"] (Py.VInt 1900) (Py.VInt 1900) 100
           Sample.corpus).
  - intros n p Hp.
    assert (p = 1%nat) as ->
        by (destruct Hp as [Hp|[H1 H2]]; [exact Hp|];
            change (List.length Sample.corpus) with 3%nat in H2; lia).
    eexists. repeat split.
  - reflexivity.
  - repeat constructor.
  - discriminate.
  - intros it Hit.
    repeat (destruct Hit as [<-|Hit];
            [split;
             [intros c Hc;
              repeat (destruct Hc as [<-|Hc]; [discriminate|]);
              destruct Hc
             |reflexivity]|]).
    destruct Hit.
  - intros n.
    destruct n as [|[|[|[|n]]]]; eexists; split; reflexivity.
  - simpl. lia.
Defined.
